(** * getpaid-paynow: request signing, notification verification and
      status mapping of the Paynow V3 adapter

    Shallow embedding of [getpaid_paynow/client.py],
    [getpaid_paynow/processor.py] and [getpaid_paynow/types.py].

    - Python [str] values are sequences of Unicode code points ([list N]);
      [bytes] are [list byte].
    - Python exceptions are values of [exn]; a call that may raise returns
      a [result].
    - [dict] objects keep their insertion order: they are association
      lists with pairwise distinct keys.
    - The library functions the adapter calls ([hashlib.sha256],
      [hmac.new], [hmac.compare_digest], [base64.b64encode], [json.dumps],
      [str.encode], [decimal.Decimal]) are written out after their
      specifications (FIPS 180-4, RFC 2104, RFC 4648, the General Decimal
      Arithmetic rules of the default context). *)

From Stdlib Require Import NArith ZArith List String Ascii Bool Lia.
From Stdlib Require Import Strings.Byte DecimalString.
From Stdlib Require Import Permutation Sorted.
Import ListNotations.

Set Implicit Arguments.

(* ================================================================== *)
(** * Part I: definitions *)
(* ================================================================== *)

(** ** Exceptions and results *)

(** A Python [str]: its code points. *)
Abbreviation str := (list N) (only parsing).

(** A Python [bytes] object. *)
Abbreviation bytes := (list byte) (only parsing).

(** The code points of an ASCII/Latin-1 literal. *)
Definition lit (s : string) : str :=
  List.map N_of_ascii (list_ascii_of_string s).

(** The exceptions that occur; [ForeignError] stands for any other one,
    such as an error raised inside a callback of the payment machine. *)
Inductive exn : Type :=
| CredentialsError (msg : str)
| CommunicationError (msg : str)
| RefundFailure (msg : str)
| InvalidCallbackError (msg : str)
| NotImplementedError (msg : str)
| MachineError
| TypeError (msg : str)
| UnicodeEncodeError
| DecimalOverflow
| DecimalDivisionByZero
| DecimalInvalidOperation
| JSONDecodeError
| ForeignError (tag : N).

Inductive result (A : Type) : Type :=
| Ok (a : A)
| Raise (e : exn).

Arguments Ok {A} a.
Arguments Raise {A} e.

Definition bind {A B : Type} (r : result A) (k : A -> result B) : result B :=
  match r with
  | Ok a => k a
  | Raise e => Raise e
  end.

Declare Scope result_scope.
Delimit Scope result_scope with result.
Notation "x <- c ;; k" := (bind c (fun x => k))
  (at level 61, c at next level, right associativity) : result_scope.

(** ** Strings *)

Module Str.

(** [a < b] on [str]: lexicographic on code points. *)
Fixpoint compare (a b : str) : comparison :=
  match a, b with
  | [], [] => Eq
  | [], _ :: _ => Lt
  | _ :: _, [] => Gt
  | x :: a', y :: b' =>
      match N.compare x y with
      | Eq => compare a' b'
      | c => c
      end
  end.

Definition ltb (a b : str) : bool :=
  match compare a b with Lt => true | _ => false end.

Definition eqb (a b : str) : bool :=
  match compare a b with Eq => true | _ => false end.

(** [str.isascii()]. *)
Definition isascii (s : str) : bool := forallb (fun c => c <? 128)%N s.

Definition byte_of_N (n : N) : byte :=
  match Byte.of_N (n mod 256) with
  | Some b => b
  | None => x00
  end.

(** UTF-8 encoding of one code point; lone surrogates cannot be
    encoded. *)
Definition encode_char (c : N) : result bytes :=
  (if c <? 0x80 then Ok [byte_of_N c]
   else if c <? 0x800 then
     Ok [byte_of_N (N.lor 0xC0 (N.shiftr c 6));
         byte_of_N (N.lor 0x80 (N.land c 0x3F))]
   else if (0xD800 <=? c) && (c <=? 0xDFFF) then Raise UnicodeEncodeError
   else if c <? 0x10000 then
     Ok [byte_of_N (N.lor 0xE0 (N.shiftr c 12));
         byte_of_N (N.lor 0x80 (N.land (N.shiftr c 6) 0x3F));
         byte_of_N (N.lor 0x80 (N.land c 0x3F))]
   else if c <? 0x110000 then
     Ok [byte_of_N (N.lor 0xF0 (N.shiftr c 18));
         byte_of_N (N.lor 0x80 (N.land (N.shiftr c 12) 0x3F));
         byte_of_N (N.lor 0x80 (N.land (N.shiftr c 6) 0x3F));
         byte_of_N (N.lor 0x80 (N.land c 0x3F))]
   else Raise UnicodeEncodeError)%N.

(** [s.encode()] (UTF-8, strict). *)
Fixpoint encode (s : str) : result bytes :=
  match s with
  | [] => Ok []
  | c :: s' =>
      (b <- encode_char c ;;
       bs <- encode s' ;;
       Ok (b ++ bs))%result
  end.

(** [b.decode()] of ASCII-only bytes, as produced by base64. *)
Definition decode_ascii (b : bytes) : str := List.map Byte.to_N b.

End Str.

(** ** SHA-256 (FIPS 180-4) *)

Module Sha256.
Local Open Scope N_scope.

Definition mask32 : N := 0xFFFFFFFF.
Definition add32 (a b : N) : N := N.land (a + b) mask32.
Definition rotr (n x : N) : N :=
  N.land (N.lor (N.shiftr x n) (N.shiftl x (32 - n))) mask32.
Definition shr (n x : N) : N := N.shiftr x n.
Definition not32 (x : N) : N := N.lxor x mask32.

Definition Ch (x y z : N) : N :=
  N.lxor (N.land x y) (N.land (not32 x) z).
Definition Maj (x y z : N) : N :=
  N.lxor (N.lxor (N.land x y) (N.land x z)) (N.land y z).
Definition Sigma0 (x : N) : N :=
  N.lxor (N.lxor (rotr 2 x) (rotr 13 x)) (rotr 22 x).
Definition Sigma1 (x : N) : N :=
  N.lxor (N.lxor (rotr 6 x) (rotr 11 x)) (rotr 25 x).
Definition sigma0 (x : N) : N :=
  N.lxor (N.lxor (rotr 7 x) (rotr 18 x)) (shr 3 x).
Definition sigma1 (x : N) : N :=
  N.lxor (N.lxor (rotr 17 x) (rotr 19 x)) (shr 10 x).

(** The largest [r] below [2^bits] with [r^k <= n], one bit at a time. *)
Fixpoint root_bits (k : N) (n : N) (bits : nat) (r : N) : N :=
match bits with
| O => r
| S bits' =>
    let r' := N.lor r (N.shiftl 1 (N.of_nat bits')) in
    root_bits k n bits' (if r' ^ k <=? n then r' else r)
end.

(** The first 32 bits of the fractional part of the [k]-th root of [p]. *)
Definition root_fraction (k : N) (p : N) : N :=
N.land (root_bits k (N.shiftl p (32 * k)) 36 0) mask32.

Definition primes : list N :=
[2; 3; 5; 7; 11; 13; 17; 19; 23; 29; 31; 37; 41; 43; 47; 53; 59; 61; 67;
 71; 73; 79; 83; 89; 97; 101; 103; 107; 109; 113; 127; 131; 137; 139; 149;
 151; 157; 163; 167; 173; 179; 181; 191; 193; 197; 199; 211; 223; 227; 229;
 233; 239; 241; 251; 257; 263; 269; 271; 277; 281; 283; 293; 307; 311].

(** The round constants: the cube roots of the first 64 primes. *)
Definition K : list N :=
Eval vm_compute in List.map (root_fraction 3) primes.

(** Big-endian encoding of [n] on [len] bytes. *)
Fixpoint be_bytes (len : nat) (n : N) : bytes :=
  match len with
  | O => []
  | S len' =>
      Str.byte_of_N (N.shiftr n (8 * N.of_nat len')) :: be_bytes len' n
  end.

(** Padding: a [1] bit, zeros up to 56 mod 64, the bit length on 64
    bits. *)
Definition pad (msg : bytes) : bytes :=
  let len := N.of_nat (List.length msg) in
  let zeros := (119 - len mod 64) mod 64 in
  msg ++ [x80] ++ List.repeat x00 (N.to_nat zeros) ++ be_bytes 8 (8 * len).

(** The big-endian 32-bit words of a byte sequence. *)
Fixpoint words (b : bytes) : list N :=
  match b with
  | b0 :: b1 :: b2 :: b3 :: rest =>
      (Byte.to_N b0 * 0x1000000 + Byte.to_N b1 * 0x10000
       + Byte.to_N b2 * 0x100 + Byte.to_N b3)
        :: words rest
  | _ => []
  end.

(** The message schedule: [w] holds W_0..W_{t-1}; [n] more words are
    appended. *)
Fixpoint schedule (n : nat) (w : list N) : list N :=
  match n with
  | O => w
  | S n' =>
      let t := List.length w in
      let at_ i := List.nth (t - i) w 0 in
      schedule n'
        (w ++ [add32 (add32 (sigma1 (at_ 2%nat)) (at_ 7%nat))
                     (add32 (sigma0 (at_ 15%nat)) (at_ 16%nat))])
  end.

Definition regs : Type := (N * N * N * N * N * N * N * N)%type.

Definition round (s : regs) (kw : N * N) : regs :=
  let '(a, b, c, d, e, f, g, h) := s in
  let '(k, w) := kw in
  let t1 := add32 (add32 (add32 h (Sigma1 e)) (add32 (Ch e f g) k)) w in
  let t2 := add32 (Sigma0 a) (Maj a b c) in
  (add32 t1 t2, a, b, c, add32 d t1, e, f, g).

Definition compress (s : regs) (block : list N) : regs :=
  let w := schedule 48 block in
  let '(a, b, c, d, e, f, g, h) := List.fold_left round (List.combine K w) s in
  let '(a0, b0, c0, d0, e0, f0, g0, h0) := s in
  (add32 a0 a, add32 b0 b, add32 c0 c, add32 d0 d,
   add32 e0 e, add32 f0 f, add32 g0 g, add32 h0 h).

(** The padded message, sixteen words at a time. *)
Fixpoint blocks (fuel : nat) (w : list N) (s : regs) : regs :=
  match fuel with
  | O => s
  | S fuel' =>
      match w with
      | [] => s
      | _ => blocks fuel' (List.skipn 16 w) (compress s (List.firstn 16 w))
      end
  end.

(** The initial hash value: the square roots of the first 8 primes. *)
Definition init : regs :=
Eval vm_compute in
  match List.map (root_fraction 2) (List.firstn 8 primes) with
  | [a; b; c; d; e; f; g; h] => (a, b, c, d, e, f, g, h)
  | _ => (0, 0, 0, 0, 0, 0, 0, 0)
  end.

(** [hashlib.sha256(msg).digest()]. *)
Definition digest (msg : bytes) : bytes :=
  let p := pad msg in
  let w := words p in
  let '(a, b, c, d, e, f, g, h) := blocks (List.length w) w init in
  be_bytes 4 a ++ be_bytes 4 b ++ be_bytes 4 c ++ be_bytes 4 d
  ++ be_bytes 4 e ++ be_bytes 4 f ++ be_bytes 4 g ++ be_bytes 4 h.

End Sha256.

(** ** HMAC (RFC 2104) over SHA-256 *)

Module Hmac.

Definition block_size : nat := 64.

Definition xor_byte (p : N) (b : byte) : byte :=
  Str.byte_of_N (N.lxor p (Byte.to_N b)).

(** The key brought to the block size: hashed when longer, then
    zero-filled. *)
Definition block_key (key : bytes) : bytes :=
  let k := if Nat.ltb block_size (List.length key)
           then Sha256.digest key else key in
  k ++ List.repeat x00 (block_size - List.length k).

(** [hmac.new(key, msg, hashlib.sha256).digest()]. *)
Definition digest (key msg : bytes) : bytes :=
  let k := block_key key in
  let inner := Sha256.digest (List.map (xor_byte 0x36) k ++ msg) in
  Sha256.digest (List.map (xor_byte 0x5c) k ++ inner).

(** [hmac.compare_digest(a, b)] on two [str] arguments: both must be
    ASCII, otherwise [TypeError]. *)
Definition compare_digest (a b : str) : result bool :=
  if Str.isascii a && Str.isascii b
  then Ok (Str.eqb a b)
  else Raise (TypeError
    (lit "comparing strings with non-ASCII characters is not supported")).

End Hmac.

(** ** Base64 (RFC 4648, standard alphabet, padded) *)

Module Base64.
Local Open Scope N_scope.

Definition alphabet : str :=
  lit "ABCDEFGHIJKLMNOPQRSTUVWXYZabcdefghijklmnopqrstuvwxyz0123456789+/".

Definition sextet (n : N) : byte :=
  Str.byte_of_N (List.nth (N.to_nat (n mod 64)) alphabet 0).

Definition pad_char : byte := Str.byte_of_N 61.

Fixpoint b64encode (b : bytes) : bytes :=
  match b with
  | [] => []
  | [b0] =>
      let n := Byte.to_N b0 * 0x10000 in
      [sextet (N.shiftr n 18); sextet (N.shiftr n 12); pad_char; pad_char]
  | [b0; b1] =>
      let n := Byte.to_N b0 * 0x10000 + Byte.to_N b1 * 0x100 in
      [sextet (N.shiftr n 18); sextet (N.shiftr n 12);
       sextet (N.shiftr n 6); pad_char]
  | b0 :: b1 :: b2 :: rest =>
      let n := Byte.to_N b0 * 0x10000 + Byte.to_N b1 * 0x100
               + Byte.to_N b2 in
      sextet (N.shiftr n 18) :: sextet (N.shiftr n 12)
        :: sextet (N.shiftr n 6) :: sextet n :: b64encode rest
  end.

End Base64.

(** ** [dict], [sorted] and [json.dumps] *)

Module Dict.

(** A [dict] with [str] keys, in insertion order. *)
Definition dict (V : Type) : Type := list (str * V).

(** [d.get(k, default)]. *)
Fixpoint get {V : Type} (d : dict V) (k : str) (default : V) : V :=
  match d with
  | [] => default
  | (k', v) :: d' => if Str.eqb k' k then v else get d' k default
  end.

(** [d[k] = v]: an existing key keeps its place. *)
Fixpoint setitem {V : Type} (k : str) (v : V) (d : dict V) : dict V :=
  match d with
  | [] => [(k, v)]
  | (k', v') :: d' =>
      if Str.eqb k' k then (k', v) :: d' else (k', v') :: setitem k v d'
  end.

(** [d.items()]. *)
Definition items {V : Type} (d : dict V) : list (str * V) := d.

(** [dict(pairs)]. *)
Definition of_items {V : Type} (l : list (str * V)) : dict V :=
  List.fold_left (fun d kv => setitem (fst kv) (snd kv) d) l [].

(** The keys are pairwise distinct, as in every [dict]. *)
Definition wf {V : Type} (d : dict V) : Prop := NoDup (List.map fst d).

End Dict.

Module Sorting.

(** [a < b] on [(str, str)] tuples: the first differing component
    decides. *)
Definition tuple_ltb (a b : str * str) : bool :=
  match Str.compare (fst a) (fst b) with
  | Lt => true
  | Gt => false
  | Eq => Str.ltb (snd a) (snd b)
  end.

(** [x] goes before the first element that is not smaller than it. *)
Fixpoint insert (x : str * str) (l : list (str * str)) : list (str * str) :=
  match l with
  | [] => [x]
  | y :: l' => if tuple_ltb y x then y :: insert x l' else x :: l
  end.

(** [sorted(l)]: a stable sort that only uses [<]. *)
Fixpoint sorted (l : list (str * str)) : list (str * str) :=
  match l with
  | [] => []
  | x :: l' => insert x (sorted l')
  end.

End Sorting.

Module Json.
Local Open Scope N_scope.

(** The JSON values the signing payload is made of. *)
#[warnings="-register-all"]
Inductive json : Type :=
| JStr (s : str)
| JObj (items : list (str * json)).

Definition hex_digit (n : N) : N :=
  List.nth (N.to_nat (n mod 16)) (lit "0123456789abcdef") 0.

(** ['\\u{0:04x}'.format(n)]. *)
Definition u_escape (n : N) : str :=
  [92; 117; hex_digit (N.shiftr n 12); hex_digit (N.shiftr n 8);
   hex_digit (N.shiftr n 4); hex_digit n].

(** One character of [py_encode_basestring_ascii]: everything outside
    [' '..'~'], the quote and the backslash are escaped. *)
Definition escape_char (c : N) : str :=
  if c =? 34 then [92; 34]
  else if c =? 92 then [92; 92]
  else if c =? 10 then [92; 110]
  else if c =? 13 then [92; 114]
  else if c =? 9 then [92; 116]
  else if c =? 12 then [92; 102]
  else if c =? 8 then [92; 98]
  else if (32 <=? c) && (c <=? 126) then [c]
  else if c <? 0x10000 then u_escape c
  else
    let n := c - 0x10000 in
    u_escape (N.lor 0xd800 (N.land (N.shiftr n 10) 0x3ff))
    ++ u_escape (N.lor 0xdc00 (N.land n 0x3ff)).

Definition encode_basestring_ascii (s : str) : str :=
  [34] ++ List.flat_map escape_char s ++ [34].

(** [json.dumps(j, separators=(",", ":"))]. *)
Fixpoint dumps (j : json) : str :=
  match j with
  | JStr s => encode_basestring_ascii s
  | JObj items =>
      let fix members (l : list (str * json)) : str :=
        match l with
        | [] => []
        | (k, v) :: l' =>
            encode_basestring_ascii k ++ lit ":" ++ dumps v
            ++ match l' with
               | [] => []
               | _ :: _ => lit "," ++ members l'
               end
        end in
      lit "{" ++ members items ++ lit "}"
  end.

(** A [dict] of strings as a JSON object. *)
Definition of_dict (d : Dict.dict str) : json :=
  JObj (List.map (fun kv => (fst kv, JStr (snd kv))) d).

End Json.

(** ** [decimal.Decimal] under the default context *)

Module Decimal.
Local Open Scope Z_scope.

(** A finite decimal: [(-1)^sign * coeff * 10^exp], with [0 <= coeff]. *)
Record t : Type := mk { sign : bool; coeff : Z; exp : Z }.

(** The default context: 28 digits, [ROUND_HALF_EVEN], exponents within
    [Emin, Emax], no clamping; [Overflow], [DivisionByZero] and
    [InvalidOperation] are the trapped signals. *)
Definition prec : Z := 28.
Definition Emax : Z := 999999.
Definition Emin : Z := -999999.
Definition Etiny : Z := Emin - prec + 1.
Definition Etop : Z := Emax - prec + 1.

Fixpoint ndigits_aux (fuel : nat) (c : Z) : Z :=
  match fuel with
  | O => 1
  | S fuel' => if c <? 10 then 1 else 1 + ndigits_aux fuel' (c / 10)
  end.

(** [len(str(c))] for [0 <= c]. *)
Definition ndigits (c : Z) : Z := ndigits_aux (Z.to_nat (Z.log2 c)) c.

(** [Decimal(n)] for an [int]: exact. *)
Definition of_int (n : Z) : t :=
  {| sign := n <? 0; coeff := Z.abs n; exp := 0 |}.

(** [_fix]: round to the context's precision. *)
Definition fix_ (d : t) : result t :=
  if coeff d =? 0 then
    Ok {| sign := sign d; coeff := 0;
          exp := Z.min (Z.max (exp d) Etiny) Emax |}
  else
    let exp_min := ndigits (coeff d) + exp d - prec in
    if exp_min >? Etop then Raise DecimalOverflow
    else
      let exp_min := if exp_min <? Etiny then Etiny else exp_min in
      if exp d <? exp_min then
        let digits := ndigits (coeff d) + exp d - exp_min in
        let '(c, e) :=
          if digits <? 0 then (1, exp_min - 1) else (coeff d, exp d) in
        let unit := 10 ^ (exp_min - e) in
        let q := c / unit in
        let r := c mod unit in
        let up := (unit <? 2 * r) || ((unit =? 2 * r) && Z.odd q) in
        let '(q, exp_min) :=
          if up then
            if ndigits (q + 1) >? prec
            then ((q + 1) / 10, exp_min + 1)
            else (q + 1, exp_min)
          else (q, exp_min) in
        if exp_min >? Etop then Raise DecimalOverflow
        else Ok {| sign := sign d; coeff := q; exp := exp_min |}
      else Ok d.

(** [a * b]. *)
Definition mul (a b : t) : result t :=
  fix_ {| sign := xorb (sign a) (sign b);
          coeff := coeff a * coeff b;
          exp := exp a + exp b |}.

(** The exact-quotient loop of [__truediv__]: trailing zeros are removed
    while the exponent is below the ideal one. *)
Fixpoint strip (fuel : nat) (c e ideal : Z) : Z * Z :=
  match fuel with
  | O => (c, e)
  | S fuel' =>
      if (e <? ideal) && (c mod 10 =? 0)
      then strip fuel' (c / 10) (e + 1) ideal
      else (c, e)
  end.

(** [a / b]. *)
Definition div (a b : t) : result t :=
  if coeff b =? 0 then
    Raise (if coeff a =? 0
           then DecimalInvalidOperation else DecimalDivisionByZero)
  else
    let s := xorb (sign a) (sign b) in
    if coeff a =? 0 then
      fix_ {| sign := s; coeff := 0; exp := exp a - exp b |}
    else
      let shift := ndigits (coeff b) - ndigits (coeff a) + prec + 1 in
      let e := exp a - exp b - shift in
      let '(n, d) :=
        if 0 <=? shift
        then (coeff a * 10 ^ shift, coeff b)
        else (coeff a, coeff b * 10 ^ (- shift)) in
      let q := n / d in
      let r := n mod d in
      let '(q, e) :=
        if r =? 0
        then strip (Z.to_nat (exp a - exp b - e)) q e (exp a - exp b)
        else (if q mod 5 =? 0 then q + 1 else q, e) in
      fix_ {| sign := s; coeff := q; exp := e |}.

(** [int(d)]: truncation towards zero. *)
Definition to_int (d : t) : Z :=
  let m := if 0 <=? exp d
           then coeff d * 10 ^ exp d
           else coeff d / 10 ^ (- exp d) in
  if sign d then - m else m.

End Decimal.

(** ** [types.py] *)

Module PaynowPaymentStatus.

(** [class PaymentStatus(AutoName)]. *)
Inductive t : Type :=
| NEW | PENDING | CONFIRMED | REJECTED | ERROR | EXPIRED | ABANDONED.

(** The member's name. *)
Definition name (s : t) : str :=
  match s with
  | NEW => lit "NEW"
  | PENDING => lit "PENDING"
  | CONFIRMED => lit "CONFIRMED"
  | REJECTED => lit "REJECTED"
  | ERROR => lit "ERROR"
  | EXPIRED => lit "EXPIRED"
  | ABANDONED => lit "ABANDONED"
  end.

(** [s.strip("_")]. *)
Fixpoint lstrip_underscore (s : str) : str :=
  match s with
  | c :: s' => if (c =? 95)%N then lstrip_underscore s' else s
  | [] => []
  end.

Definition strip_underscore (s : str) : str :=
  List.rev (lstrip_underscore (List.rev (lstrip_underscore s))).

(** [AutoName._generate_next_value_]: the value of a member is its name
    without surrounding underscores. *)
Definition value (s : t) : str := strip_underscore (name s).

Definition members : list t :=
  [NEW; PENDING; CONFIRMED; REJECTED; ERROR; EXPIRED; ABANDONED].

End PaynowPaymentStatus.

(** ** [client.py] *)

Module Client.

(** What the transport hands back: the status code and the parsed body,
    if the body parses. *)
Record Response : Type := mkResponse {
  status_code : Z;
  content : option (Dict.dict str)
}.

(** [response.json()]. *)
Definition json (response : Response) : result (Dict.dict str) :=
  match content response with
  | Some d => Ok d
  | None => Raise JSONDecodeError
  end.

(** [PaynowClient]: the fields [__init__] sets and [last_response]. *)
Record PaynowClient : Type := mkClient {
  api_key : str;
  signature_key : str;
  api_url : str;
  last_response : option Response
}.

Definition set_last_response (r : Response) (self : PaynowClient)
  : PaynowClient :=
  {| api_key := api_key self; signature_key := signature_key self;
     api_url := api_url self; last_response := Some r |}.

(** [base64.b64encode(hmac.new(key.encode(), msg.encode(),
    hashlib.sha256).digest()).decode()]. *)
Definition hmac_b64 (key msg : str) : result str :=
  (k <- Str.encode key ;;
   m <- Str.encode msg ;;
   Ok (Str.decode_ascii (Base64.b64encode (Hmac.digest k m))))%result.

(** The JSON text that is signed. *)
Definition request_payload_json (api_key idempotency_key body : str)
    (parameters : Dict.dict str) : str :=
  let headers_dict : Dict.dict str :=
    [(lit "Api-Key", api_key); (lit "Idempotency-Key", idempotency_key)] in
  let sorted_headers :=
    Dict.of_items (Sorting.sorted (Dict.items headers_dict)) in
  let sorted_params :=
    Dict.of_items (Sorting.sorted (Dict.items parameters)) in
  let payload :=
    Json.JObj [(lit "headers", Json.of_dict sorted_headers);
               (lit "parameters", Json.of_dict sorted_params);
               (lit "body", Json.JStr body)] in
  Json.dumps payload.

Definition _calculate_request_signature (self : PaynowClient)
    (api_key idempotency_key body : str) (parameters : Dict.dict str)
  : result str :=
  hmac_b64 (signature_key self)
    (request_payload_json api_key idempotency_key body parameters).

Definition _calculate_notification_signature (self : PaynowClient)
    (body : str) : result str :=
  hmac_b64 (signature_key self) body.

(** [_build_headers]. *)
Definition _build_headers (self : PaynowClient) (idempotency_key body : str)
    (parameters : option (Dict.dict str)) : result (Dict.dict str) :=
  let params := match parameters with
                | Some (x :: d) => x :: d
                | _ => []
                end in
  (signature <- _calculate_request_signature self (api_key self)
                  idempotency_key body params ;;
   Ok [(lit "Api-Key", api_key self);
       (lit "Signature", signature);
       (lit "Idempotency-Key", idempotency_key);
       (lit "Content-Type", lit "application/json");
       (lit "Accept", lit "application/json")])%result.

(** [str(n)] for an [int]. *)
Definition str_of_int (n : Z) : str :=
  lit (NilZero.string_of_int (Z.to_int n)).

Definition _handle_error {A : Type} (response : Response) : result A :=
  if (status_code response =? 401)%Z then
    Raise (CredentialsError (lit "Paynow API authentication failed."))
  else
    Raise (CommunicationError
             (lit "Paynow API error (HTTP "
              ++ str_of_int (status_code response) ++ lit ").")).

Definition _to_lowest_unit (amount : Decimal.t) : result Z :=
  (m <- Decimal.mul amount (Decimal.of_int 100) ;;
   Ok (Decimal.to_int m))%result.

Definition _from_lowest_unit (amount : Z) : result Decimal.t :=
  Decimal.div (Decimal.of_int amount) (Decimal.of_int 100).

(** The six operations, each from the point where [_request] has
    returned [response]: the response is stored in [last_response] and
    its status code decides the outcome. *)
Definition in_codes (codes : list Z) (response : Response) : bool :=
  List.existsb (Z.eqb (status_code response)) codes.

Definition create_payment (self : PaynowClient) (response : Response)
  : PaynowClient * result (Dict.dict str) :=
  (set_last_response response self,
   if in_codes [200; 201]%Z response then json response
   else _handle_error response).

Definition get_payment_status (self : PaynowClient) (response : Response)
  : PaynowClient * result (Dict.dict str) :=
  (set_last_response response self,
   if (status_code response =? 200)%Z then json response
   else _handle_error response).

Definition create_refund (self : PaynowClient) (response : Response)
  : PaynowClient * result (Dict.dict str) :=
  (set_last_response response self,
   if in_codes [200; 201]%Z response then json response
   else if (status_code response =? 401)%Z then
     Raise (CredentialsError (lit "Paynow API authentication failed."))
   else Raise (RefundFailure (lit "Error creating Paynow refund."))).

Definition get_refund_status (self : PaynowClient) (response : Response)
  : PaynowClient * result (Dict.dict str) :=
  (set_last_response response self,
   if (status_code response =? 200)%Z then json response
   else _handle_error response).

Definition cancel_refund (self : PaynowClient) (response : Response)
  : PaynowClient * result unit :=
  (set_last_response response self,
   if in_codes [200; 202]%Z response then Ok tt
   else _handle_error response).

Definition get_payment_methods (self : PaynowClient) (response : Response)
  : PaynowClient * result (Dict.dict str) :=
  (set_last_response response self,
   if (status_code response =? 200)%Z then json response
   else _handle_error response).

End Client.

(** ** [processor.py] *)

Module Processor.

(** The settings [_get_client] reads. *)
Record Config : Type := mkConfig {
  cfg_api_key : str;
  cfg_signature_key : str;
  paywall_baseurl : str
}.

(** [PaymentStatusResponse] of the core package. *)
Record PaymentStatusResponse : Type := mkStatusResponse {
  proposed : option str
}.

Definition _get_client (config : Config) : Client.PaynowClient :=
  Client.mkClient (cfg_api_key config) (cfg_signature_key config)
                  (paywall_baseurl config) None.

(** [verify_callback(data, headers, **kwargs)]; [raw_body] is the
    keyword argument of that name, if it was passed. *)
Definition verify_callback (config : Config) (data headers : Dict.dict str)
    (raw_body : option str) : result unit :=
  let raw_body := match raw_body with Some b => b | None => [] end in
  let received_sig := Dict.get headers (lit "Signature") [] in
  match received_sig with
  | [] =>
      Raise (InvalidCallbackError
               (lit "Missing Signature header in notification"))
  | _ :: _ =>
      let client := _get_client config in
      (expected_sig <-
         Client._calculate_notification_signature client raw_body ;;
       same <- Hmac.compare_digest expected_sig received_sig ;;
       if negb same then
         Raise (InvalidCallbackError
                  (lit "BAD SIGNATURE: got '" ++ received_sig
                   ++ lit "', expected '" ++ expected_sig ++ lit "'"))
       else Ok tt)%result
  end.

(** [charge] and [release_lock]: there is no pre-authorization flow. *)
Definition charge {A : Type} : result A :=
  Raise (NotImplementedError
           (lit "Paynow does not support pre-authorization/charge flow")).

Definition release_lock {A : Type} : result A :=
  Raise (NotImplementedError
           (lit "Paynow does not support pre-authorization/release flow")).

(** The pull table of [fetch_payment_status]. *)
Definition status_map : Dict.dict (option str) :=
  let v := PaynowPaymentStatus.value in
  Dict.of_items
    [(v PaynowPaymentStatus.NEW, None);
     (v PaynowPaymentStatus.PENDING, Some (lit "confirm_prepared"));
     (v PaynowPaymentStatus.CONFIRMED, Some (lit "confirm_payment"));
     (v PaynowPaymentStatus.REJECTED, Some (lit "fail"));
     (v PaynowPaymentStatus.ERROR, Some (lit "fail"));
     (v PaynowPaymentStatus.EXPIRED, Some (lit "fail"));
     (v PaynowPaymentStatus.ABANDONED, Some (lit "fail"))].

Section WithPayment.

(** The states of the payment machine and the payment's remaining
    attributes are the core package's. *)
Variables St X : Type.

Record Payment : Type := mkPayment {
  id : str;
  status : St;
  external_id : str;
  attrs : X
}.

(** [self.payment.external_id = v]. *)
Definition set_external_id (v : str) (p : Payment) : Payment :=
  {| id := id p; status := status p; external_id := v;
     attrs := attrs p |}.

(** The machine the core package attaches to the payment:
    [may_trigger(name)], the trigger methods, and whether the payment
    has a [fail] attribute. A trigger returns the payment as it left
    it and what it returned or raised. *)
Record Machine : Type := mkMachine {
  may_trigger : Payment -> str -> bool;
  trigger : str -> Payment -> Payment * result unit;
  has_fail : Payment -> bool
}.

(** [with contextlib.suppress(MachineError): ...]. *)
Definition suppress_MachineError (r : result unit) : result unit :=
  match r with
  | Raise MachineError => Ok tt
  | _ => r
  end.

Definition failure_statuses : list str :=
  [PaynowPaymentStatus.value PaynowPaymentStatus.REJECTED;
   PaynowPaymentStatus.value PaynowPaymentStatus.ERROR;
   PaynowPaymentStatus.value PaynowPaymentStatus.EXPIRED;
   PaynowPaymentStatus.value PaynowPaymentStatus.ABANDONED].

(** [handle_callback(data, headers)]: the payment after the call and
    what the call returned or raised. *)
Definition handle_callback (m : Machine) (data headers : Dict.dict str)
    (payment : Payment) : Payment * result unit :=
  let payment_id := Dict.get data (lit "paymentId") [] in
  let paynow_status := Dict.get data (lit "status") [] in
  let payment :=
    match payment_id with
    | [] => payment
    | _ :: _ => set_external_id payment_id payment
    end in
  if Str.eqb paynow_status
       (PaynowPaymentStatus.value PaynowPaymentStatus.CONFIRMED) then
    if may_trigger m payment (lit "confirm_payment") then
      match trigger m (lit "confirm_payment") payment with
      | (payment, Ok _) =>
          let '(payment, r) := trigger m (lit "mark_as_paid") payment in
          (payment, suppress_MachineError r)
      | (payment, Raise e) => (payment, Raise e)
      end
    else (payment, Ok tt)
  else if List.existsb (Str.eqb paynow_status) failure_statuses then
    if has_fail m payment then
      let '(payment, r) := trigger m (lit "fail") payment in
      (payment, suppress_MachineError r)
    else (payment, Ok tt)
  else (payment, Ok tt).

(** [fetch_payment_status()], from the point where the transport has
    answered the status query with [response]. *)
Definition fetch_payment_status (config : Config)
    (response : Client.Response) (payment : Payment)
  : Payment * result PaymentStatusResponse :=
  let client := _get_client config in
  (payment,
   (response <- snd (Client.get_payment_status client response) ;;
    let paynow_status := Dict.get response (lit "status") [] in
    Ok {| proposed := Dict.get status_map paynow_status None |})%result).

End WithPayment.

End Processor.

(** ** A payment machine to run the adapter against *)

Module CoreMachine.

(** Modelled from the spec: the payment state machine is the core
    package's ([getpaid_core.fsm]), an external collaborator that is not
    part of these sources. This instance has the states the spec names
    (section 4.4) and the intermediate state between confirmation and
    full payment; its transitions are the ones the repository's tests
    rely on: [confirm_prepared] from NEW, [confirm_payment] from
    PREPARED or PARTIAL, [mark_as_paid] from PARTIAL, [fail] from NEW or
    PREPARED. An illegal trigger raises [MachineError] and leaves the
    payment alone. *)
Inductive state : Type := NEW | PREPARED | PARTIAL | PAID | FAILED.

Definition payment : Type := Processor.Payment state unit.

Definition target (name : str) (s : state) : option state :=
  if Str.eqb name (lit "confirm_prepared") then
    match s with NEW => Some PREPARED | _ => None end
  else if Str.eqb name (lit "confirm_payment") then
    match s with PREPARED | PARTIAL => Some PARTIAL | _ => None end
  else if Str.eqb name (lit "mark_as_paid") then
    match s with PARTIAL => Some PAID | _ => None end
  else if Str.eqb name (lit "fail") then
    match s with NEW | PREPARED => Some FAILED | _ => None end
  else None.

Definition machine : Processor.Machine state unit :=
  {| Processor.may_trigger := fun p name =>
       match target name (Processor.status p) with
       | Some _ => true
       | None => false
       end;
     Processor.trigger := fun name p =>
       match target name (Processor.status p) with
       | Some s' =>
           (Processor.mkPayment (Processor.id p) s'
              (Processor.external_id p) (Processor.attrs p), Ok tt)
       | None => (p, Raise MachineError)
       end;
     Processor.has_fail := fun _ => true |}.

(** A variant that settles a payment at once: [confirm_payment] takes
    PREPARED to PAID, so that the [mark_as_paid] that follows it is
    illegal. *)
Definition settling_machine : Processor.Machine state unit :=
  {| Processor.may_trigger := Processor.may_trigger machine;
     Processor.trigger := fun name p =>
       if Str.eqb name (lit "confirm_payment") then
         match Processor.status p with
         | PREPARED =>
             (Processor.mkPayment (Processor.id p) PAID
                (Processor.external_id p) (Processor.attrs p), Ok tt)
         | _ => (p, Raise MachineError)
         end
       else Processor.trigger machine name p;
     Processor.has_fail := fun _ => true |}.

End CoreMachine.

(** ** The published test data *)

Module Fixture.

Definition api_key : str := lit "97a55694-5478-43b5-b406-fb49ebfdd2b5".
Definition signature_key : str :=
  lit "b305b996-bca5-4404-a0b7-2ccea3d2b64b".
Definition idempotency_key : str :=
  lit "d243fdb3-c287-484a-bb9c-58536f2794c1".
Definition sandbox_url : str := lit "https://api.sandbox.paynow.pl".

Definition client : Client.PaynowClient :=
  Client.mkClient api_key signature_key sandbox_url None.

Definition config : Processor.Config :=
  Processor.mkConfig api_key signature_key sandbox_url.

(** A string between double quotes. *)
Definition quoted (s : str) : str := [34%N] ++ s ++ [34%N].

(** The compact notification body the tests build. *)
Definition notification_body : str :=
  lit "{" ++ quoted (lit "paymentId") ++ lit ":" ++ quoted (lit "PAY-123")
  ++ lit "," ++ quoted (lit "externalId") ++ lit ":"
  ++ quoted (lit "test-payment-123")
  ++ lit "," ++ quoted (lit "status") ++ lit ":" ++ quoted (lit "CONFIRMED")
  ++ lit "," ++ quoted (lit "modifiedAt") ++ lit ":"
  ++ quoted (lit "2025-01-15T10:30:00") ++ lit "}".

(** The parsed form of that body. *)
Definition notification (status : str) : Dict.dict str :=
  [(lit "paymentId", lit "PAY-123");
   (lit "externalId", lit "test-payment-123");
   (lit "status", status);
   (lit "modifiedAt", lit "2025-01-15T10:30:00")].

Definition payment (s : CoreMachine.state) : CoreMachine.payment :=
  Processor.mkPayment (lit "test-payment-123") s [] tt.

End Fixture.

(** ** [client.py]: building and sending requests *)

Module Api.

(** The value of a query parameter: an [int] or a [str]. *)
Inductive pvalue : Type :=
| PInt (n : Z)
| PStr (s : str).

(** [str(v)]. *)
Definition str_of (v : pvalue) : str :=
  match v with
  | PInt n => Client.str_of_int n
  | PStr s => s
  end.

(** The JSON values of a request body. *)
#[warnings="-register-all"]
Inductive jvalue : Type :=
| VStr (s : str)
| VInt (n : Z)
| VObj (items : list (str * jvalue)).

(** [json.dumps(data, default=str)]: the default separators. *)
Fixpoint dumps (j : jvalue) : str :=
  match j with
  | VStr s => Json.encode_basestring_ascii s
  | VInt n => Client.str_of_int n
  | VObj items =>
      let fix members (l : list (str * jvalue)) : str :=
        match l with
        | [] => []
        | (k, v) :: l' =>
            Json.encode_basestring_ascii k ++ lit ": " ++ dumps v
            ++ match l' with
               | [] => []
               | _ :: _ => lit ", " ++ members l'
               end
        end in
      lit "{" ++ members items ++ lit "}"
  end.

(** What is handed to the transport. *)
Record Request : Type := mkRequest {
  method : str;
  url : str;
  headers : Dict.dict str;
  content : option str;
  params : option (Dict.dict pvalue)
}.

(** [s.lstrip("/")] and [s.rstrip("/")]. *)
Fixpoint lstrip_slash (s : str) : str :=
  match s with
  | c :: s' => if (c =? 47)%N then lstrip_slash s' else s
  | [] => []
  end.

Definition rstrip_slash (s : str) : str :=
  List.rev (lstrip_slash (List.rev s)).

(** [PaynowClient(api_key=..., signature_key=..., api_url=...)]. *)
Definition init (api_key signature_key api_url : str) : Client.PaynowClient :=
  Client.mkClient api_key signature_key (rstrip_slash api_url) None.

(** [d[k] = v] when [v] is given. *)
Definition set_some {V : Type} (k : str) (v : option V) (d : Dict.dict V)
  : Dict.dict V :=
  match v with
  | Some x => Dict.setitem k x d
  | None => d
  end.

(** The request [_request] builds; [idempotency_key] is the key
    [_generate_idempotency_key] returned. *)
Definition _request (self : Client.PaynowClient) (idempotency_key : str)
    (method path : str) (body : option str)
    (params : option (Dict.dict pvalue)) : result Request :=
  let url := Client.api_url self ++ path in
  let str_params : Dict.dict str :=
    match params with
    | Some (x :: d) => List.map (fun kv => (fst kv, str_of (snd kv))) (x :: d)
    | _ => []
    end in
  (headers <- Client._build_headers self idempotency_key
                (match body with Some b => b | None => [] end)
                (Some str_params) ;;
   Ok (mkRequest method url headers body params))%result.

(** The [buyer] object of [create_payment]. *)
Definition buyer_data (buyer_email : str)
    (buyer_first_name buyer_last_name buyer_phone : option str)
  : Dict.dict jvalue :=
  set_some (lit "phone") (option_map VStr buyer_phone)
    (set_some (lit "lastName") (option_map VStr buyer_last_name)
       (set_some (lit "firstName") (option_map VStr buyer_first_name)
          [(lit "email", VStr buyer_email)])).

(** The [data] dict of [create_payment]. *)
Definition payment_data (amount_int : Z)
    (currency external_id description buyer_email : str)
    (continue_url buyer_first_name buyer_last_name buyer_phone : option str)
    (validity_time : option Z) (locale : option str) : Dict.dict jvalue :=
  set_some (lit "locale") (option_map VStr locale)
    (set_some (lit "validityTime") (option_map VInt validity_time)
       (set_some (lit "continueUrl") (option_map VStr continue_url)
          [(lit "amount", VInt amount_int);
           (lit "currency", VStr currency);
           (lit "externalId", VStr external_id);
           (lit "description", VStr description);
           (lit "buyer",
            VObj (buyer_data buyer_email buyer_first_name buyer_last_name
                    buyer_phone))])).

(** The [data] dict of [create_refund]. *)
Definition refund_data (amount_int : Z) (reason : option str)
  : Dict.dict jvalue :=
  set_some (lit "reason") (option_map VStr reason)
    [(lit "amount", VInt amount_int)].

(** The [params] dict of [get_payment_methods], before [params or None]. *)
Definition methods_params (amount : option Z) (currency : option str)
  : Dict.dict pvalue :=
  set_some (lit "currency") (option_map PStr currency)
    (set_some (lit "amount") (option_map PInt amount) []).

Section WithTransport.

(** The transport: the response to a request. Failures of the transport
    itself are outside this model. *)
Variable send : Request -> Client.Response.

(** What an operation does with the request it built, or with the error
    that kept it from building one. *)
Definition exchange {A : Type} (self : Client.PaynowClient)
    (request : result Request)
    (interpret : Client.PaynowClient -> Client.Response
                 -> Client.PaynowClient * result A)
  : Client.PaynowClient * result A :=
  match request with
  | Ok r => interpret self (send r)
  | Raise e => (self, Raise e)
  end.

Definition create_payment (self : Client.PaynowClient) (idempotency_key : str)
    (amount : Decimal.t) (currency external_id description buyer_email : str)
    (continue_url buyer_first_name buyer_last_name buyer_phone : option str)
    (validity_time : option Z) (locale : option str)
  : Client.PaynowClient * result (Dict.dict str) :=
  exchange self
    (amount_int <- Client._to_lowest_unit amount ;;
     let data := payment_data amount_int currency external_id description
                   buyer_email continue_url buyer_first_name buyer_last_name
                   buyer_phone validity_time locale in
     let encoded := dumps (VObj data) in
     _request self idempotency_key (lit "POST") (lit "/v3/payments")
       (Some encoded) None)%result
    Client.create_payment.

Definition get_payment_status (self : Client.PaynowClient)
    (idempotency_key payment_id : str)
  : Client.PaynowClient * result (Dict.dict str) :=
  exchange self
    (_request self idempotency_key (lit "GET")
       (lit "/v3/payments/" ++ payment_id ++ lit "/status") None None)
    Client.get_payment_status.

Definition create_refund (self : Client.PaynowClient)
    (idempotency_key payment_id : str) (amount : Decimal.t)
    (reason : option str) : Client.PaynowClient * result (Dict.dict str) :=
  exchange self
    (amount_int <- Client._to_lowest_unit amount ;;
     let encoded := dumps (VObj (refund_data amount_int reason)) in
     _request self idempotency_key (lit "POST")
       (lit "/v3/payments/" ++ payment_id ++ lit "/refunds")
       (Some encoded) None)%result
    Client.create_refund.

Definition get_refund_status (self : Client.PaynowClient)
    (idempotency_key refund_id : str)
  : Client.PaynowClient * result (Dict.dict str) :=
  exchange self
    (_request self idempotency_key (lit "GET")
       (lit "/v3/refunds/" ++ refund_id ++ lit "/status") None None)
    Client.get_refund_status.

Definition cancel_refund (self : Client.PaynowClient)
    (idempotency_key refund_id : str) : Client.PaynowClient * result unit :=
  exchange self
    (_request self idempotency_key (lit "POST")
       (lit "/v3/refunds/" ++ refund_id ++ lit "/cancel") None None)
    Client.cancel_refund.

Definition get_payment_methods (self : Client.PaynowClient)
    (idempotency_key : str) (amount : option Z) (currency : option str)
  : Client.PaynowClient * result (Dict.dict str) :=
  exchange self
    (_request self idempotency_key (lit "GET")
       (lit "/v3/payments/paymentmethods") None
       (match methods_params amount currency with
        | [] => None
        | x :: d => Some (x :: d)
        end))
    Client.get_payment_methods.

End WithTransport.

End Api.

(** ** [processor.py]: the operations that call the gateway *)

Module Flow.



(** [d.get(k)] followed by a truth test: the value when it is there and
    not empty. *)
Definition get_truthy (d : Dict.dict str) (k : str) : option str :=
  match Dict.get d k [] with
  | [] => None
  | v => Some v
  end.

Section WithPayment.

(** The payment's state and remaining attributes, and how the attributes
    the processor reads are found among them; [resolve] is
    [url_template.format(payment_id=...)], which may raise. *)
Variables St X : Type.
Variable amount_required : X -> Decimal.t.
Variable amount_paid : X -> Decimal.t.
Variable payment_currency : X -> str.
Variable payment_description : X -> str.
Variable buyer_info : X -> Dict.dict str.
Variable external_refund_id : X -> option str.
Variable resolve : str -> str -> result str.

Variable send : Api.Request -> Client.Response.






(** [cancel_refund()]. *)
Definition cancel_refund (config : Processor.Config) (idempotency_key : str)
    (payment : Processor.Payment St X) : result bool :=
  let client := Processor._get_client config in
  let refund_id :=
    match external_refund_id (Processor.attrs payment) with
    | Some r => r
    | None => []
    end in
  (_ <- snd (Api.cancel_refund send client idempotency_key refund_id) ;;
   Ok true)%result.

End WithPayment.

End Flow.

(** ** Notions used in the statements *)

(** The exceptions the adapter raises, with their messages. *)
Definition missing_signature : exn :=
  InvalidCallbackError (lit "Missing Signature header in notification").

Definition credentials_error : exn :=
  CredentialsError (lit "Paynow API authentication failed.").

Definition refund_failure : exn :=
  RefundFailure (lit "Error creating Paynow refund.").

Definition communication_error (response : Client.Response) : exn :=
  CommunicationError
    (lit "Paynow API error (HTTP "
     ++ Client.str_of_int (Client.status_code response) ++ lit ").").

Definition raises_credentials {A : Type} (r : result A) : Prop :=
  match r with
  | Raise (CredentialsError _) => True
  | _ => False
  end.

(** The pull table as the specification lists it. *)
Definition spec_pull_table (s : PaynowPaymentStatus.t) : option str :=
  match s with
  | PaynowPaymentStatus.NEW => None
  | PaynowPaymentStatus.PENDING => Some (lit "confirm_prepared")
  | PaynowPaymentStatus.CONFIRMED => Some (lit "confirm_payment")
  | PaynowPaymentStatus.REJECTED
  | PaynowPaymentStatus.ERROR
  | PaynowPaymentStatus.EXPIRED
  | PaynowPaymentStatus.ABANDONED => Some (lit "fail")
  end.

(** The payment once the notification's [paymentId] has been recorded. *)
Definition recorded {St X : Type} (data : Dict.dict str)
    (p : Processor.Payment St X) : Processor.Payment St X :=
  match Dict.get data (lit "paymentId") [] with
  | [] => p
  | pid => Processor.set_external_id pid p
  end.

(** The order of two items by their keys. *)
Definition key_lt (a b : str * str) : Prop :=
  Str.compare (fst a) (fst b) = Lt.


(** The parameters a request is signed with: their values as strings. *)
Definition signed_parameters (params : option (Dict.dict Api.pvalue))
  : Dict.dict str :=
  match params with
  | Some d => List.map (fun kv => (fst kv, Api.str_of (snd kv))) d
  | None => []
  end.

(* ================================================================== *)
(** * Part II: properties *)
(* ================================================================== *)

(** ** Request signature: the known vector *)

(** C1: with the published keys, an empty body and no parameters, the
    request signature is the published base64 string; the signed text is
    the compact JSON object with the keys [headers], [parameters], [body]
    in that order, the two headers in key order. *)
Theorem request_signature_known_vector :
  Client._calculate_request_signature Fixture.client Fixture.api_key
    Fixture.idempotency_key [] []
  = Ok (lit "fXwLZRwo0WiGll90PPl5oULX9VKA0gpFA/3+E+NRp5E=")
  /\ Client.request_payload_json Fixture.api_key Fixture.idempotency_key [] []
     = lit "{" ++ Fixture.quoted (lit "headers") ++ lit ":{"
       ++ Fixture.quoted (lit "Api-Key") ++ lit ":"
       ++ Fixture.quoted Fixture.api_key ++ lit ","
       ++ Fixture.quoted (lit "Idempotency-Key") ++ lit ":"
       ++ Fixture.quoted Fixture.idempotency_key ++ lit "},"
       ++ Fixture.quoted (lit "parameters") ++ lit ":{},"
       ++ Fixture.quoted (lit "body") ++ lit ":" ++ Fixture.quoted []
       ++ lit "}".
Proof. split; vm_compute; reflexivity. Qed.

(** The notification signature of the documentation's example body. *)
Example notification_signature_known_vector :
  let q := Fixture.quoted in
  let nl := [10%N] in
  Client._calculate_notification_signature Fixture.client
    (lit "{" ++ nl
     ++ lit "    " ++ q (lit "paymentId") ++ lit ": "
     ++ q (lit "NOLV-8F9-08K-WGD") ++ lit "," ++ nl
     ++ lit "    " ++ q (lit "externalId") ++ lit ": "
     ++ q (lit "9fea23c7-cd5c-4884-9842-6f8592be65df") ++ lit "," ++ nl
     ++ lit "    " ++ q (lit "status") ++ lit ": "
     ++ q (lit "CONFIRMED") ++ lit "," ++ nl
     ++ lit "    " ++ q (lit "modifiedAt") ++ lit ": "
     ++ q (lit "2018-12-12T13:24:52") ++ nl ++ lit "}")
  = Ok (lit "F69sbjUxBX4eFjfUal/Y9XGREbfaRjh/zdq9j4MWeHM=").
Proof. vm_compute; reflexivity. Qed.

(** ** Notification verification *)

(** No [Signature] entry, or an empty one: the verifier raises at once,
    whatever the key and the body are. *)
Lemma verify_callback_missing_signature config data headers raw_body :
  Dict.get headers (lit "Signature") [] = [] ->
  Processor.verify_callback config data headers raw_body
  = Raise missing_signature.
Proof.
  intros H. unfold Processor.verify_callback. rewrite H. reflexivity.
Qed.

Lemma str_compare_refl (a : str) : Str.compare a a = Eq.
Proof.
  induction a as [|x a IH]; simpl; [reflexivity|].
  rewrite N.compare_refl. exact IH.
Qed.

Lemma str_compare_eq (a b : str) : Str.compare a b = Eq -> a = b.
Proof.
  revert b; induction a as [|x a IH]; intros [|y b]; simpl;
    try discriminate; [reflexivity|].
  destruct (N.compare x y) eqn:E; try discriminate.
  apply N.compare_eq in E. intros H. f_equal; auto.
Qed.

Lemma str_eqb_eq (a b : str) : Str.eqb a b = true <-> a = b.
Proof.
  unfold Str.eqb. split.
  - destruct (Str.compare a b) eqn:E; try discriminate.
    intros _. now apply str_compare_eq.
  - intros ->. now rewrite str_compare_refl.
Qed.

Lemma str_eqb_refl (a : str) : Str.eqb a a = true.
Proof. now apply str_eqb_eq. Qed.

(** Base64 text is ASCII. *)
Lemma sextet_ascii (n : N) : (Byte.to_N (Base64.sextet n) <? 128)%N = true.
Proof.
  unfold Base64.sextet.
  assert (H : (N.to_nat (n mod 64) < 64)%nat).
  { pose proof (N.mod_upper_bound n 64 ltac:(discriminate)). lia. }
  revert H. generalize (N.to_nat (n mod 64)) as i. intros i H.
  do 64 (destruct i as [|i]; [vm_compute; reflexivity|]). lia.
Qed.

Lemma b64encode_ascii (b : list byte) :
  Str.isascii (Str.decode_ascii (Base64.b64encode b)) = true.
Proof.
  assert (H : forall n (l : list byte), (List.length l <= n)%nat ->
              Str.isascii (Str.decode_ascii (Base64.b64encode l)) = true).
  { induction n as [|n IH]; intros l Hl.
    - destruct l; [reflexivity|simpl in Hl; lia].
    - destruct l as [|b0 [|b1 [|b2 rest]]];
        unfold Str.isascii, Str.decode_ascii in *;
        cbn [Base64.b64encode List.map forallb];
        rewrite ?sextet_ascii; try reflexivity.
      cbn [andb]. apply IH. simpl in Hl. lia. }
  now apply (H (List.length b)).
Qed.

Lemma hmac_b64_ascii (key msg sig : str) :
  Client.hmac_b64 key msg = Ok sig -> Str.isascii sig = true.
Proof.
  unfold Client.hmac_b64.
  destruct (Str.encode key); [|discriminate].
  destruct (Str.encode msg); [|discriminate].
  cbn [bind]. intros [= <-]. apply b64encode_ascii.
Qed.

(** A present, ASCII signature that differs from the computed one: the
    verifier raises with a message made of the two signatures and of
    nothing else; the key only enters through the computed signature. *)
Lemma verify_callback_bad_signature config data headers raw_body
    received expected :
  Dict.get headers (lit "Signature") [] = received ->
  received <> [] ->
  Str.isascii received = true ->
  Client._calculate_notification_signature (Processor._get_client config)
    (match raw_body with Some b => b | None => [] end) = Ok expected ->
  received <> expected ->
  Processor.verify_callback config data headers raw_body
  = Raise (InvalidCallbackError
             (lit "BAD SIGNATURE: got '" ++ received
              ++ lit "', expected '" ++ expected ++ lit "'")).
Proof.
  intros Hget Hne Har Hsig Hdiff.
  pose proof (hmac_b64_ascii _ _ Hsig) as Hae.
  unfold Processor.verify_callback. rewrite Hget.
  destruct received as [|c r]; [congruence|].
  rewrite Hsig. simpl bind. unfold Hmac.compare_digest.
  rewrite Hae, Har. simpl.
  destruct (Str.eqb expected (c :: r)) eqn:E.
  - apply str_eqb_eq in E. congruence.
  - reflexivity.
Qed.

(** A present signature with a character outside ASCII never reaches the
    comparison: [compare_digest] raises. *)
Lemma verify_callback_non_ascii config data headers raw_body
    received expected :
  Dict.get headers (lit "Signature") [] = received ->
  Str.isascii received = false ->
  Client._calculate_notification_signature (Processor._get_client config)
    (match raw_body with Some b => b | None => [] end) = Ok expected ->
  Processor.verify_callback config data headers raw_body
  = Raise (TypeError
      (lit "comparing strings with non-ASCII characters is not supported")).
Proof.
  intros Hget Har Hsig.
  unfold Processor.verify_callback. rewrite Hget.
  destruct received as [|c r]; [discriminate Har|].
  rewrite Hsig. simpl bind. unfold Hmac.compare_digest.
  rewrite Har, andb_false_r. reflexivity.
Qed.

(** C2: a call without [raw_body] is verified as a call with an empty
    body: the verifier does not raise for the missing argument, and it
    accepts the signature of the empty string. *)
Theorem verify_callback_without_raw_body :
  (forall config data headers,
     Processor.verify_callback config data headers None
     = Processor.verify_callback config data headers (Some []))
  /\ Client._calculate_notification_signature Fixture.client []
     = Ok (lit "Xd1bEqv2cdjw1gvOX4eMcHinDNlLg+N5R4IPyb1/Aps=")
  /\ Processor.verify_callback Fixture.config
       (Fixture.notification (lit "CONFIRMED"))
       [(lit "Signature", lit "Xd1bEqv2cdjw1gvOX4eMcHinDNlLg+N5R4IPyb1/Aps=")]
       None
     = Ok tt.
Proof.
  split; [reflexivity|]. split; vm_compute; reflexivity.
Qed.

(** C6: the header is looked up under the exact name [Signature]: the
    same signature under [signature] is not found, and the verifier
    reports a missing signature, whatever the signature and the body. *)
Theorem verify_callback_header_name_case_sensitive :
  (forall config data sig raw_body,
     Processor.verify_callback config data [(lit "signature", sig)] raw_body
     = Raise missing_signature)
  /\ (forall config data sig raw_body,
        Processor.verify_callback config data [(lit "SIGNATURE", sig)] raw_body
        = Raise missing_signature)
  /\ Processor.verify_callback Fixture.config
       (Fixture.notification (lit "CONFIRMED"))
       [(lit "Signature", lit "GsZkOYlwN92ZXMSr6hwlo/P2pG3cMyzCJrnc7/JvgaQ=")]
       (Some Fixture.notification_body)
     = Ok tt
  /\ Processor.verify_callback Fixture.config
       (Fixture.notification (lit "CONFIRMED"))
       [(lit "signature", lit "GsZkOYlwN92ZXMSr6hwlo/P2pG3cMyzCJrnc7/JvgaQ=")]
       (Some Fixture.notification_body)
     = Raise missing_signature.
Proof.
  repeat split; intros;
    try (apply verify_callback_missing_signature; reflexivity);
    vm_compute; reflexivity.
Qed.

(** C8: a received signature with a character outside ASCII makes
    [compare_digest] raise [TypeError]: the verifier fails with that
    error, not with an [InvalidCallbackError] that shows the two
    signatures. *)
Theorem verify_callback_non_ascii_signature :
  Processor.verify_callback Fixture.config
    (Fixture.notification (lit "CONFIRMED"))
    [(lit "Signature", [233%N])]
    (Some Fixture.notification_body)
  = Raise (TypeError
      (lit "comparing strings with non-ASCII characters is not supported")).
Proof. vm_compute; reflexivity. Qed.

(** ** Error categories of the client *)

Lemma handle_error_other (A : Type) (response : Client.Response) :
  Client.status_code response <> 401%Z ->
  @Client._handle_error A response = Raise (communication_error response).
Proof.
  intros H. unfold Client._handle_error.
  destruct (Z.eqb_spec (Client.status_code response) 401); [contradiction|].
  reflexivity.
Qed.

Lemma handle_error_401 (A : Type) (response : Client.Response) :
  Client.status_code response = 401%Z ->
  @Client._handle_error A response = Raise credentials_error.
Proof.
  intros H. unfold Client._handle_error. rewrite H. reflexivity.
Qed.

Lemma json_not_credentials (response : Client.Response) :
  ~ raises_credentials (Client.json response).
Proof.
  unfold Client.json. destruct (Client.content response); simpl; auto.
Qed.

(** C3: a status code other than 401 that the operation does not accept
    makes [create_refund] raise [RefundFailure], and makes
    [get_refund_status] and the four other operations raise
    [CommunicationError]; [create_refund] and [get_refund_status] raise
    [CredentialsError] exactly on 401. *)
Theorem refund_error_categories (self : Client.PaynowClient)
    (response : Client.Response) :
  let code := Client.status_code response in
  (code <> 401%Z ->
   (Client.in_codes [200; 201]%Z response = false ->
    snd (Client.create_refund self response) = Raise refund_failure)
   /\ (code <> 200%Z ->
       snd (Client.get_refund_status self response)
       = Raise (communication_error response)
       /\ snd (Client.get_payment_status self response)
          = Raise (communication_error response)
       /\ snd (Client.get_payment_methods self response)
          = Raise (communication_error response))
   /\ (Client.in_codes [200; 201]%Z response = false ->
       snd (Client.create_payment self response)
       = Raise (communication_error response))
   /\ (Client.in_codes [200; 202]%Z response = false ->
       snd (Client.cancel_refund self response)
       = Raise (communication_error response)))
  /\ (raises_credentials (snd (Client.create_refund self response))
      <-> code = 401%Z)
  /\ (raises_credentials (snd (Client.get_refund_status self response))
      <-> code = 401%Z).
Proof.
  intros code. subst code. split; [intros H401; repeat split|split].
  - intros Hc. unfold Client.create_refund. cbn [snd]. rewrite Hc.
    destruct (Z.eqb_spec (Client.status_code response) 401);
      [contradiction|reflexivity].
  - unfold Client.get_refund_status. simpl.
    destruct (Z.eqb_spec (Client.status_code response) 200);
      [contradiction|]. now apply handle_error_other.
  - unfold Client.get_payment_status. simpl.
    destruct (Z.eqb_spec (Client.status_code response) 200);
      [contradiction|]. now apply handle_error_other.
  - unfold Client.get_payment_methods. simpl.
    destruct (Z.eqb_spec (Client.status_code response) 200);
      [contradiction|]. now apply handle_error_other.
  - intros Hc. unfold Client.create_payment. cbn [snd]. rewrite Hc.
    now apply handle_error_other.
  - intros Hc. unfold Client.cancel_refund. cbn [snd]. rewrite Hc.
    now apply handle_error_other.
  - unfold Client.create_refund, Client.in_codes. simpl.
    destruct (Z.eqb_spec (Client.status_code response) 200) as [E|N200];
      simpl.
    { split; [intros H; now apply json_not_credentials in H|lia]. }
    destruct (Z.eqb_spec (Client.status_code response) 201) as [E|N201];
      simpl.
    { split; [intros H; now apply json_not_credentials in H|lia]. }
    destruct (Z.eqb_spec (Client.status_code response) 401) as [E|N401];
      simpl; tauto.
  - unfold Client.get_refund_status. simpl.
    destruct (Z.eqb_spec (Client.status_code response) 200) as [E|N200].
    { split; [intros H; now apply json_not_credentials in H|lia]. }
    destruct (Z.eqb_spec (Client.status_code response) 401) as [E|N401].
    + rewrite handle_error_401 by assumption. simpl. tauto.
    + rewrite handle_error_other by assumption. simpl. tauto.
Qed.

(** The same validation failure (HTTP 400) on the two calls, and HTTP 401
    on both. *)
Lemma refund_error_categories_witness :
  snd (Client.create_refund Fixture.client (Client.mkResponse 400 None))
  = Raise refund_failure
  /\ snd (Client.get_refund_status Fixture.client (Client.mkResponse 400 None))
     = Raise (CommunicationError (lit "Paynow API error (HTTP 400)."))
  /\ raises_credentials
       (snd (Client.create_refund Fixture.client (Client.mkResponse 401 None)))
  /\ raises_credentials
       (snd (Client.get_refund_status Fixture.client
               (Client.mkResponse 401 None))).
Proof.
  pose proof (refund_error_categories Fixture.client
                (Client.mkResponse 400 None)) as H400.
  pose proof (refund_error_categories Fixture.client
                (Client.mkResponse 401 None)) as H401.
  simpl in H400, H401.
  destruct H400 as [H400 _].
  destruct (H400 ltac:(lia)) as (Hr & Hs & _).
  destruct H401 as (_ & Hc & Hg).
  split; [apply Hr; reflexivity|].
  split; [apply (Hs ltac:(lia))|].
  split; [apply Hc; reflexivity|apply Hg; reflexivity].
Defined.

(** ** The pull table *)

Lemma status_map_total (s : PaynowPaymentStatus.t) :
  Dict.get Processor.status_map (PaynowPaymentStatus.value s) None
  = spec_pull_table s.
Proof. destruct s; vm_compute; reflexivity. Qed.

(** C9: for each of the seven gateway statuses, a successful status query
    that reports it makes [fetch_payment_status] return the table's entry
    for it; whatever the answer, the payment is returned as it was. *)
Theorem fetch_payment_status_mapping (St X : Type) (config : Processor.Config)
    (payment : Processor.Payment St X) (s : PaynowPaymentStatus.t)
    (body : Dict.dict str) :
  Dict.get body (lit "status") [] = PaynowPaymentStatus.value s ->
  Processor.fetch_payment_status config
    (Client.mkResponse 200 (Some body)) payment
  = (payment, Ok (Processor.mkStatusResponse (spec_pull_table s)))
  /\ (forall response,
        fst (Processor.fetch_payment_status config response payment)
        = payment)
  /\ List.In s PaynowPaymentStatus.members.
Proof.
  intros H. split; [|split].
  - unfold Processor.fetch_payment_status.
    cbn -[Processor.status_map Dict.get PaynowPaymentStatus.value lit].
    rewrite H, status_map_total. reflexivity.
  - reflexivity.
  - destruct s; simpl; tauto.
Qed.

Lemma fetch_payment_status_mapping_witness :
  Processor.fetch_payment_status Fixture.config
    (Client.mkResponse 200
       (Some [(lit "paymentId", lit "PAY-123"); (lit "status", lit "EXPIRED")]))
    (Fixture.payment CoreMachine.PREPARED)
  = (Fixture.payment CoreMachine.PREPARED,
     Ok (Processor.mkStatusResponse (Some (lit "fail")))).
Proof.
  exact (proj1 (@fetch_payment_status_mapping _ _ Fixture.config
                  (Fixture.payment CoreMachine.PREPARED)
                  PaynowPaymentStatus.EXPIRED
                  [(lit "paymentId", lit "PAY-123");
                   (lit "status", lit "EXPIRED")]
                  eq_refl)).
Defined.

(** ** Notification handling *)

Section Callback.

Variables St X : Type.
Variable m : Processor.Machine St X.

Abbreviation Payment := (Processor.Payment St X).

Lemma recorded_status (data : Dict.dict str) (p : Payment) :
  Processor.status (recorded data p) = Processor.status p.
Proof. unfold recorded. now destruct (Dict.get data _ _). Qed.

Lemma recorded_idem (data : Dict.dict str) (p : Payment) : recorded data (recorded data p) = recorded data p.
Proof. unfold recorded. now destruct (Dict.get data _ _). Qed.

Lemma recorded_frame (data : Dict.dict str) (p : Payment) :
  Processor.id (recorded data p) = Processor.id p
  /\ Processor.attrs (recorded data p) = Processor.attrs p.
Proof. unfold recorded. now destruct (Dict.get data _ _). Qed.

(** What is left of [handle_callback] for a CONFIRMED notification. *)
Lemma handle_callback_confirmed (data headers : Dict.dict str) (p : Payment) :
  Dict.get data (lit "status") []
  = PaynowPaymentStatus.value PaynowPaymentStatus.CONFIRMED ->
  Processor.handle_callback m data headers p
  = let p0 := recorded data p in
    if Processor.may_trigger m p0 (lit "confirm_payment") then
      match Processor.trigger m (lit "confirm_payment") p0 with
      | (p1, Ok _) =>
          let '(p2, r) := Processor.trigger m (lit "mark_as_paid") p1 in
          (p2, Processor.suppress_MachineError r)
      | (p1, Raise e) => (p1, Raise e)
      end
    else (p0, Ok tt).
Proof.
  intros Hs. unfold Processor.handle_callback, recorded. rewrite Hs.
  rewrite str_eqb_refl.
  destruct (Dict.get data (lit "paymentId") []); reflexivity.
Qed.

(** What is left of it for a status without a transition. *)
Lemma handle_callback_no_action (data headers : Dict.dict str) (p : Payment) :
  Str.eqb (Dict.get data (lit "status") [])
    (PaynowPaymentStatus.value PaynowPaymentStatus.CONFIRMED) = false ->
  List.existsb (Str.eqb (Dict.get data (lit "status") []))
    Processor.failure_statuses = false ->
  Processor.handle_callback m data headers p = (recorded data p, Ok tt).
Proof.
  intros Hc Hf. unfold Processor.handle_callback, recorded.
  rewrite Hc, Hf.
  destruct (Dict.get data (lit "paymentId") []); reflexivity.
Qed.

(** The handler only looks at the payment through [recorded]. *)
Lemma handle_callback_recorded (data headers : Dict.dict str) (p : Payment) :
  Processor.handle_callback m data headers (recorded data p)
  = Processor.handle_callback m data headers p.
Proof.
  unfold Processor.handle_callback, recorded.
  destruct (Dict.get data (lit "paymentId") []); reflexivity.
Qed.

(** C4: a CONFIRMED notification for a payment from whose state
    [confirm_payment] is illegal (a payment already PAID, a NEW one)
    does not raise and leaves state, id and attributes as they were, and
    so does delivering it again; when [confirm_payment] is legal and
    succeeds, a [MachineError] of the following [mark_as_paid] is
    suppressed. *)
Theorem handle_callback_confirmed_benign
    (data headers : Dict.dict str) (p : Payment) :
  Dict.get data (lit "status") []
  = PaynowPaymentStatus.value PaynowPaymentStatus.CONFIRMED ->
  ((forall q, Processor.status q = Processor.status p ->
              Processor.may_trigger m q (lit "confirm_payment") = false) ->
   let p' := fst (Processor.handle_callback m data headers p) in
   snd (Processor.handle_callback m data headers p) = Ok tt
   /\ Processor.status p' = Processor.status p
   /\ Processor.id p' = Processor.id p
   /\ Processor.attrs p' = Processor.attrs p
   /\ Processor.handle_callback m data headers p' = (p', Ok tt))
  /\ (forall p1 p2,
        Processor.may_trigger m (recorded data p) (lit "confirm_payment")
        = true ->
        Processor.trigger m (lit "confirm_payment") (recorded data p)
        = (p1, Ok tt) ->
        Processor.trigger m (lit "mark_as_paid") p1
        = (p2, Raise MachineError) ->
        Processor.handle_callback m data headers p = (p2, Ok tt)).
Proof.
  intros Hs. split.
  - intros Hill.
    assert (H0 : Processor.handle_callback m data headers p
                 = (recorded data p, Ok tt)).
    { rewrite handle_callback_confirmed by assumption. cbv zeta.
      rewrite Hill by apply recorded_status. reflexivity. }
    rewrite H0. cbn [fst snd].
    destruct (recorded_frame data p) as [Hid Hat].
    repeat split; auto using recorded_status.
    rewrite handle_callback_recorded. exact H0.
  - intros p1 p2 Hmay Hc Hp.
    rewrite handle_callback_confirmed by assumption. cbv zeta.
    rewrite Hmay, Hc, Hp. reflexivity.
Qed.

(** C10: a non-empty [paymentId] is recorded first: the handler's
    outcome is a function of the payment with [external_id] already
    set, for every status; for a status without a transition (neither
    CONFIRMED nor one of the four failure statuses: PENDING, NEW,
    anything else) the payment comes back with [external_id] set and
    nothing else changed; and when the machine's triggers leave
    [external_id] alone, it holds the [paymentId] after the call under
    every status, raised or not. *)
Theorem handle_callback_records_payment_id
    (data headers : Dict.dict str) (p : Payment) (pid : str) :
  Dict.get data (lit "paymentId") [] = pid ->
  pid <> [] ->
  let status := Dict.get data (lit "status") [] in
  Processor.handle_callback m data headers p
  = Processor.handle_callback m data headers
      (Processor.set_external_id pid p)
  /\ (Str.eqb status
        (PaynowPaymentStatus.value PaynowPaymentStatus.CONFIRMED) = false ->
      List.existsb (Str.eqb status) Processor.failure_statuses = false ->
      Processor.handle_callback m data headers p
      = (Processor.mkPayment (Processor.id p) (Processor.status p) pid
           (Processor.attrs p), Ok tt))
  /\ ((forall name q,
         Processor.external_id (fst (Processor.trigger m name q))
         = Processor.external_id q) ->
      Processor.external_id
        (fst (Processor.handle_callback m data headers p)) = pid).
Proof.
  intros Hpid Hne status.
  assert (Hrec : recorded data p = Processor.set_external_id pid p).
  { unfold recorded. rewrite Hpid. destruct pid; [congruence|reflexivity]. }
  split; [|split].
  - rewrite <- Hrec. symmetry. apply handle_callback_recorded.
  - intros Hc Hf. rewrite handle_callback_no_action by assumption.
    rewrite Hrec. reflexivity.
  - intros Hframe. unfold Processor.handle_callback.
    rewrite Hpid. destruct pid as [|c pid]; [congruence|].
    set (p0 := Processor.set_external_id (c :: pid) p).
    assert (H0 : Processor.external_id p0 = c :: pid) by reflexivity.
    destruct (Str.eqb _ _).
    + destruct (Processor.may_trigger m p0 _); [|exact H0].
      pose proof (Hframe (lit "confirm_payment") p0) as H1.
      destruct (Processor.trigger m (lit "confirm_payment") p0)
        as [p1 [u|e]]; cbn [fst] in *; [|congruence].
      pose proof (Hframe (lit "mark_as_paid") p1) as H2.
      destruct (Processor.trigger m (lit "mark_as_paid") p1) as [p2 r].
      cbn [fst] in *. congruence.
    + destruct (List.existsb _ _); [|exact H0].
      destruct (Processor.has_fail m p0); [|exact H0].
      pose proof (Hframe (lit "fail") p0) as H1.
      destruct (Processor.trigger m (lit "fail") p0) as [p1 r].
      cbn [fst] in *. congruence.
Qed.

End Callback.

(** The duplicate on a PAID payment, the early notification on a NEW one,
    and a suppressed [mark_as_paid]. *)
Lemma handle_callback_confirmed_benign_witness :
  let data := Fixture.notification (lit "CONFIRMED") in
  (let p' := fst (Processor.handle_callback CoreMachine.machine data []
                    (Fixture.payment CoreMachine.PAID)) in
   snd (Processor.handle_callback CoreMachine.machine data []
          (Fixture.payment CoreMachine.PAID)) = Ok tt
   /\ Processor.status p' = CoreMachine.PAID
   /\ Processor.handle_callback CoreMachine.machine data [] p' = (p', Ok tt))
  /\ (let p' := fst (Processor.handle_callback CoreMachine.machine data []
                       (Fixture.payment CoreMachine.NEW)) in
      snd (Processor.handle_callback CoreMachine.machine data []
             (Fixture.payment CoreMachine.NEW)) = Ok tt
      /\ Processor.status p' = CoreMachine.NEW)
  /\ Processor.handle_callback CoreMachine.settling_machine data []
       (Fixture.payment CoreMachine.PREPARED)
     = (Processor.mkPayment (lit "test-payment-123") CoreMachine.PAID
          (lit "PAY-123") tt, Ok tt).
Proof.
  intros data.
  assert (Hs : Dict.get data (lit "status") []
               = PaynowPaymentStatus.value PaynowPaymentStatus.CONFIRMED)
    by reflexivity.
  split; [|split].
  - destruct (handle_callback_confirmed_benign CoreMachine.machine data []
                (Fixture.payment CoreMachine.PAID) Hs) as [H _].
    destruct H as (Hr & Hst & _ & _ & Hagain).
    { intros q Hq. cbn in Hq |- *. unfold CoreMachine.target.
      rewrite Hq. reflexivity. }
    exact (conj Hr (conj Hst Hagain)).
  - destruct (handle_callback_confirmed_benign CoreMachine.machine data []
                (Fixture.payment CoreMachine.NEW) Hs) as [H _].
    destruct H as (Hr & Hst & _).
    { intros q Hq. cbn in Hq |- *. unfold CoreMachine.target.
      rewrite Hq. reflexivity. }
    exact (conj Hr Hst).
  - destruct (handle_callback_confirmed_benign CoreMachine.settling_machine
                data [] (Fixture.payment CoreMachine.PREPARED) Hs) as [_ H].
    apply (H (Processor.mkPayment (lit "test-payment-123") CoreMachine.PAID
                (lit "PAY-123") tt)); reflexivity.
Defined.

Lemma core_machine_keeps_external_id (name : str) (q : CoreMachine.payment) :
  Processor.external_id (fst (Processor.trigger CoreMachine.machine name q))
  = Processor.external_id q.
Proof.
  cbn. destruct (CoreMachine.target name (Processor.status q)); reflexivity.
Qed.

(** A PENDING notification on a PREPARED payment. *)
Lemma handle_callback_records_payment_id_witness :
  let data := Fixture.notification (lit "PENDING") in
  let p := Fixture.payment CoreMachine.PREPARED in
  Processor.handle_callback CoreMachine.machine data [] p
  = (Processor.mkPayment (lit "test-payment-123") CoreMachine.PREPARED
       (lit "PAY-123") tt, Ok tt)
  /\ Processor.external_id
       (fst (Processor.handle_callback CoreMachine.machine
               (Fixture.notification (lit "REJECTED")) [] p))
     = lit "PAY-123".
Proof.
  intros data p. split.
  - destruct (handle_callback_records_payment_id CoreMachine.machine data []
                p (pid := lit "PAY-123") eq_refl ltac:(discriminate))
      as (_ & H & _).
    apply H; reflexivity.
  - destruct (handle_callback_records_payment_id CoreMachine.machine
                (Fixture.notification (lit "REJECTED")) []
                p (pid := lit "PAY-123") eq_refl ltac:(discriminate))
      as (_ & _ & H).
    apply H. exact core_machine_keeps_external_id.
Defined.

(** ** Request signature: the order of the parameters *)

Lemma str_compare_antisym (a b : str) :
  Str.compare b a = CompOpp (Str.compare a b).
Proof.
  revert b; induction a as [|x a IH]; intros [|y b]; simpl; try reflexivity.
  rewrite (N.compare_antisym x y).
  destruct (N.compare x y); simpl; auto.
Qed.

Lemma str_compare_trans (a b c : str) :
  Str.compare a b = Lt -> Str.compare b c = Lt -> Str.compare a c = Lt.
Proof.
  revert b c; induction a as [|x a IH]; intros [|y b] [|z c]; simpl;
    try discriminate; try reflexivity.
  destruct (N.compare_spec x y) as [->|Hxy|Hxy]; try discriminate.
  - destruct (N.compare z y) eqn:E; rewrite (N.compare_antisym z y), E;
      simpl; try discriminate; auto. apply IH.
  - intros _. destruct (N.compare_spec y z) as [->|Hyz|Hyz];
      try discriminate; intros _.
    + now apply N.compare_lt_iff in Hxy as ->.
    + assert (H : (x < z)%N) by lia. now apply N.compare_lt_iff in H as ->.
Qed.

Lemma key_lt_trans a b c : key_lt a b -> key_lt b c -> key_lt a c.
Proof. unfold key_lt. apply str_compare_trans. Qed.

Lemma key_lt_asym a b : key_lt a b -> key_lt b a -> False.
Proof.
  unfold key_lt. intros H1 H2.
  rewrite str_compare_antisym, H1 in H2. discriminate.
Qed.

Lemma tuple_ltb_distinct (a b : str * str) :
  fst a <> fst b ->
  (Sorting.tuple_ltb a b = true /\ key_lt a b)
  \/ (Sorting.tuple_ltb a b = false /\ key_lt b a).
Proof.
  intros Hne. unfold Sorting.tuple_ltb, key_lt.
  rewrite (str_compare_antisym (fst a) (fst b)).
  destruct (Str.compare (fst a) (fst b)) eqn:E; simpl; auto.
  apply str_compare_eq in E. contradiction.
Qed.

Lemma insert_perm x l : Permutation (Sorting.insert x l) (x :: l).
Proof.
  induction l as [|y l IH]; simpl; [reflexivity|].
  destruct (Sorting.tuple_ltb y x); [|reflexivity].
  rewrite IH. apply perm_swap.
Qed.

Lemma sorted_perm l : Permutation (Sorting.sorted l) l.
Proof.
  induction l as [|x l IH]; simpl; [reflexivity|].
  rewrite insert_perm. now constructor.
Qed.

Lemma insert_sorted x l :
  StronglySorted key_lt l ->
  Forall (fun y => fst y <> fst x) l ->
  StronglySorted key_lt (Sorting.insert x l).
Proof.
  induction l as [|y l IH]; simpl; intros Hs Hd.
  - repeat constructor.
  - inversion Hs as [|? ? Hs' Hall]; subst.
    inversion Hd as [|? ? Hy Hd']; subst.
    destruct (tuple_ltb_distinct y x Hy) as [[-> Hlt]|[-> Hlt]].
    + constructor; [now apply IH|].
      apply (Permutation_Forall (Permutation_sym (insert_perm x l))).
      now constructor.
    + constructor; [assumption|]. constructor; [assumption|].
      eapply Forall_impl; [|exact Hall].
      intros z Hz. now apply key_lt_trans with y.
Qed.

Lemma sorted_sorted l :
  NoDup (List.map fst l) -> StronglySorted key_lt (Sorting.sorted l).
Proof.
  induction l as [|x l IH]; simpl; intros Hnd; [constructor|].
  inversion Hnd as [|? ? Hnotin Hnd']; subst.
  apply insert_sorted; [now apply IH|].
  apply (Permutation_Forall (Permutation_sym (sorted_perm l))).
  apply Forall_forall. intros y Hy Heq. apply Hnotin.
  rewrite <- Heq. now apply in_map.
Qed.

Lemma sorted_unique l1 l2 :
  StronglySorted key_lt l1 -> StronglySorted key_lt l2 ->
  Permutation l1 l2 -> l1 = l2.
Proof.
  revert l2; induction l1 as [|x l1 IH]; intros l2 H1 H2 Hp.
  - now apply Permutation_nil in Hp.
  - destruct l2 as [|y l2].
    { symmetry in Hp. now apply Permutation_nil in Hp. }
    inversion H1 as [|? ? H1' Hx]; subst.
    inversion H2 as [|? ? H2' Hy]; subst.
    assert (Hxy : x = y).
    { assert (Hin : In x (y :: l2))
        by (eapply Permutation_in; [exact Hp|now left]).
      assert (Hin' : In y (x :: l1))
        by (eapply Permutation_in; [symmetry; exact Hp|now left]).
      destruct Hin as [|Hin]; [congruence|].
      destruct Hin' as [|Hin']; [congruence|].
      rewrite Forall_forall in Hx, Hy.
      exfalso. exact (key_lt_asym (Hx _ Hin') (Hy _ Hin)). }
    subst y. f_equal. apply IH; auto.
    now apply Permutation_cons_inv in Hp.
Qed.

(** [sorted] only depends on the items when the keys are distinct. *)
Lemma sorted_order_independent l1 l2 :
  NoDup (List.map fst l1) -> Permutation l1 l2 ->
  Sorting.sorted l1 = Sorting.sorted l2.
Proof.
  intros Hnd Hp. apply sorted_unique.
  - now apply sorted_sorted.
  - apply sorted_sorted.
    eapply Permutation_NoDup; [|exact Hnd]. now apply Permutation_map.
  - rewrite !sorted_perm. exact Hp.
Qed.

(** C7: two parameter dicts with the same bindings, inserted in different
    orders, give the same signature, all other inputs being equal. *)
Theorem request_signature_order_independent (self : Client.PaynowClient)
    (api_key idempotency_key body : str) (p1 p2 : Dict.dict str) :
  Dict.wf p1 ->
  Permutation (Dict.items p1) (Dict.items p2) ->
  Client._calculate_request_signature self api_key idempotency_key body p1
  = Client._calculate_request_signature self api_key idempotency_key body p2.
Proof.
  intros Hwf Hp.
  unfold Client._calculate_request_signature, Client.request_payload_json.
  unfold Dict.items in *.
  now rewrite (sorted_order_independent Hwf Hp).
Qed.

Lemma request_signature_order_independent_witness :
  Client._calculate_request_signature Fixture.client Fixture.api_key
    Fixture.idempotency_key []
    [(lit "a", lit "1"); (lit "b", lit "2")]
  = Client._calculate_request_signature Fixture.client Fixture.api_key
      Fixture.idempotency_key []
      [(lit "b", lit "2"); (lit "a", lit "1")].
Proof.
  apply request_signature_order_independent.
  - unfold Dict.wf. simpl. constructor.
    + intros [H|[]]. discriminate H.
    + constructor; [intros []|constructor].
  - apply perm_swap.
Defined.

(** ** Minor units *)

Section DecimalFacts.
Local Open Scope Z_scope.

Lemma ndigits_aux_spec (fuel : nat) (c : Z) :
  0 < c -> c < 2 ^ (Z.of_nat fuel + 1) ->
  1 <= Decimal.ndigits_aux fuel c
  /\ 10 ^ (Decimal.ndigits_aux fuel c - 1) <= c
     < 10 ^ Decimal.ndigits_aux fuel c.
Proof.
  revert c; induction fuel as [|fuel IH]; intros c Hpos Hlt.
  - simpl in *. assert (c = 1) by lia. subst. cbn. lia.
  - cbn [Decimal.ndigits_aux].
    destruct (Z.ltb_spec c 10) as [Hc|Hc].
    + cbn. lia.
    + assert (Hq : 0 < c / 10) by (apply Z.div_str_pos; lia).
      assert (Hb : c / 10 < 2 ^ (Z.of_nat fuel + 1)).
      { apply Z.div_lt_upper_bound; [lia|].
        replace (Z.of_nat (S fuel) + 1) with (Z.succ (Z.of_nat fuel + 1))
          in Hlt by lia.
        rewrite Z.pow_succ_r in Hlt by lia. lia. }
      destruct (IH _ Hq Hb) as (H1 & Hlo & Hhi).
      set (n := Decimal.ndigits_aux fuel (c / 10)) in *.
      replace (1 + n - 1) with (Z.succ (n - 1)) by lia.
      replace (1 + n) with (Z.succ n) by lia.
      rewrite !Z.pow_succ_r by lia.
      pose proof (Z.mul_div_le c 10 ltac:(lia)).
      pose proof (Z.mul_succ_div_gt c 10 ltac:(lia)).
      lia.
Qed.

Lemma ndigits_spec (c : Z) :
  0 < c ->
  1 <= Decimal.ndigits c
  /\ 10 ^ (Decimal.ndigits c - 1) <= c < 10 ^ Decimal.ndigits c.
Proof.
  intros Hpos. unfold Decimal.ndigits. apply ndigits_aux_spec; [assumption|].
  pose proof (Z.log2_nonneg c).
  rewrite Z2Nat.id by assumption.
  apply Z.log2_spec in Hpos. lia.
Qed.

Lemma ndigits_unique (c n : Z) :
  0 < c -> 10 ^ (n - 1) <= c < 10 ^ n -> Decimal.ndigits c = n.
Proof.
  intros Hpos [Hlo Hhi].
  destruct (ndigits_spec Hpos) as (_ & Hlo' & Hhi').
  set (d := Decimal.ndigits c) in *.
  destruct (Z.lt_trichotomy d n) as [Hlt|[Heq|Hgt]]; [|assumption|].
  - pose proof (Z.pow_le_mono_r 10 d (n - 1) ltac:(lia) ltac:(lia)). lia.
  - pose proof (Z.pow_le_mono_r 10 n (d - 1) ltac:(lia) ltac:(lia)). lia.
Qed.

Lemma ndigits_le (c k : Z) :
  0 < c -> c < 10 ^ k -> Decimal.ndigits c <= k.
Proof.
  intros Hpos Hlt.
  destruct (ndigits_spec Hpos) as (_ & Hlo & _).
  destruct (Z.le_gt_cases (Decimal.ndigits c) k) as [|Hgt]; [assumption|].
  pose proof (Z.pow_le_mono_r 10 k (Decimal.ndigits c - 1)
                ltac:(lia) ltac:(lia)). lia.
Qed.

Lemma ndigits_mul_pow (c k : Z) :
  0 < c -> 0 <= k -> Decimal.ndigits (c * 10 ^ k) = Decimal.ndigits c + k.
Proof.
  intros Hpos Hk.
  destruct (ndigits_spec Hpos) as (H1 & Hlo & Hhi).
  assert (Hp : 0 < 10 ^ k) by (apply Z.pow_pos_nonneg; lia).
  apply ndigits_unique; [nia|].
  replace (Decimal.ndigits c + k - 1) with ((Decimal.ndigits c - 1) + k)
    by lia.
  rewrite !Z.pow_add_r by lia. nia.
Qed.

Lemma strip_pow (k f : nat) (y e ideal : Z) :
  e + Z.of_nat k <= ideal ->
  Decimal.strip (k + f) (y * 10 ^ Z.of_nat k) e ideal
  = Decimal.strip f y (e + Z.of_nat k) ideal.
Proof.
  revert e; induction k as [|k IH]; intros e He.
  - cbn [Nat.add Z.of_nat]. rewrite Z.pow_0_r, Z.mul_1_r, Z.add_0_r.
    reflexivity.
  - cbn [Nat.add Decimal.strip].
    rewrite Nat2Z.inj_succ, Z.pow_succ_r by lia.
    replace (y * (10 * 10 ^ Z.of_nat k)) with (y * 10 ^ Z.of_nat k * 10)
      by ring.
    rewrite Z_mod_mult, Z_div_mult by lia.
    destruct (Z.ltb_spec e ideal); [|lia]. cbn [andb Z.eqb].
    rewrite IH by lia. f_equal. lia.
Qed.

(** What the loop leaves of a coefficient with two implied fraction
    digits. *)
Lemma strip_two (c : Z) :
  0 < c ->
  exists c' e', Decimal.strip 2 c (-2) 0 = (c', e')
                /\ -2 <= e' <= 0 /\ 0 < c' /\ c' * 10 ^ (e' + 2) = c.
Proof.
  intros Hpos. cbn [Decimal.strip].
  change (-2 <? 0) with true. change (-2 + 1 <? 0) with true.
  cbn [andb]. change (-2 + 1 + 1) with 0. change (-2 + 1) with (-1).
  destruct (Z.eqb_spec (c mod 10) 0) as [H1|H1].
  - pose proof (Z_div_exact_full_2 c 10 ltac:(lia) H1) as E1.
    destruct (Z.eqb_spec ((c / 10) mod 10) 0) as [H2|H2].
    + pose proof (Z_div_exact_full_2 (c / 10) 10 ltac:(lia) H2) as E2.
      exists (c / 10 / 10), 0. repeat split; lia.
    + exists (c / 10), (-1). repeat split; lia.
  - exists c, (-2). repeat split; lia.
Qed.

Ltac decide_test :=
  match goal with
  | |- context [?a >? ?b] => rewrite (Z.gtb_ltb a b)
  | |- context [?a <? ?b] =>
      first [ rewrite (proj2 (Z.ltb_lt a b)) by (cbn; lia)
            | rewrite (proj2 (Z.ltb_ge a b)) by (cbn; lia) ]
  | |- context [?a =? ?b] =>
      first [ rewrite (proj2 (Z.eqb_eq a b)) by (cbn; lia)
            | rewrite (proj2 (Z.eqb_neq a b)) by (cbn; lia) ]
  | |- context [?a <=? ?b] =>
      first [ rewrite (proj2 (Z.leb_le a b)) by (cbn; lia)
            | rewrite (proj2 (Z.leb_gt a b)) by (cbn; lia) ]
  end.

(** A coefficient of at most 28 digits is not rounded. *)
Lemma fix_small (s : bool) (c e : Z) :
  0 < c -> c < 10 ^ 28 -> -2 <= e <= 0 ->
  Decimal.fix_ (Decimal.mk s c e) = Ok (Decimal.mk s c e).
Proof.
  intros Hpos Hlt He.
  destruct (ndigits_spec Hpos) as (H1 & _).
  pose proof (ndigits_le 28 Hpos Hlt) as H28.
  unfold Decimal.fix_. cbn [Decimal.coeff Decimal.exp Decimal.sign].
  unfold Decimal.Etop, Decimal.Etiny, Decimal.Emax, Decimal.Emin,
    Decimal.prec.
  set (n := Decimal.ndigits c) in *.
  repeat decide_test. reflexivity.
Qed.

(** An integer below [10^28], written with [k] extra zeros and the
    exponent [-k], is rounded without loss. *)
Lemma fix_to_int_exact (v k : Z) :
  0 < v -> v < 10 ^ 28 -> 0 <= k ->
  exists d, Decimal.fix_ (Decimal.mk false (v * 10 ^ k) (- k)) = Ok d
            /\ Decimal.to_int d = v.
Proof.
  intros Hpos Hlt Hk.
  destruct (ndigits_spec Hpos) as (H1 & _).
  pose proof (ndigits_le 28 Hpos Hlt) as H28.
  assert (Hp : 0 < 10 ^ k) by (apply Z.pow_pos_nonneg; lia).
  unfold Decimal.fix_. cbn [Decimal.coeff Decimal.exp Decimal.sign].
  unfold Decimal.Etop, Decimal.Etiny, Decimal.Emax, Decimal.Emin,
    Decimal.prec.
  rewrite ndigits_mul_pow by lia.
  set (n := Decimal.ndigits v) in *.
  assert (Hc : v * 10 ^ k <> 0) by nia.
  rewrite (proj2 (Z.eqb_neq _ _) Hc).
  rewrite Z.gtb_ltb.
  rewrite (proj2 (Z.ltb_ge _ _)) by lia.
  rewrite (proj2 (Z.ltb_ge (n + k + - k - 28) _)) by lia.
  destruct (Z.ltb_spec (- k) (n + k + - k - 28)) as [Hr|Hr].
  - rewrite (proj2 (Z.ltb_ge _ 0)) by lia.
    set (j := n + k + - k - 28 - - k).
    assert (Hj : 0 < j <= k) by (unfold j; lia).
    assert (Hsplit : v * 10 ^ k = v * 10 ^ (k - j) * 10 ^ j).
    { rewrite <- Z.mul_assoc, <- Z.pow_add_r by lia. do 2 f_equal. lia. }
    assert (Hpj : 0 < 10 ^ j) by (apply Z.pow_pos_nonneg; lia).
    rewrite Hsplit, Z_mod_mult, Z_div_mult by lia.
    rewrite (proj2 (Z.ltb_ge _ _)) by lia.
    rewrite (proj2 (Z.eqb_neq _ _)) by lia.
    cbn [orb andb].
    rewrite Z.gtb_ltb, (proj2 (Z.ltb_ge _ _)) by lia.
    eexists; split; [reflexivity|].
    unfold Decimal.to_int. cbn [Decimal.coeff Decimal.exp Decimal.sign].
    destruct (Z.leb_spec 0 (n + k + - k - 28)) as [H0|H0].
    + replace (n + k + - k - 28) with 0 by lia.
      replace (k - j) with 0 by (unfold j; lia).
      rewrite !Z.pow_0_r. lia.
    + replace (- (n + k + - k - 28)) with (k - j) by (unfold j; lia).
      assert (0 < 10 ^ (k - j)) by (apply Z.pow_pos_nonneg; lia).
      apply Z_div_mult. lia.
  - eexists; split; [reflexivity|].
    unfold Decimal.to_int. cbn [Decimal.coeff Decimal.exp Decimal.sign].
    destruct (Z.leb_spec 0 (- k)) as [H0|H0].
    + replace k with 0 by lia. cbn. lia.
    + replace (- - k) with k by lia. apply Z_div_mult. lia.
Qed.

End DecimalFacts.

(** [123] minor units are [1.23], and back. *)
Example lowest_unit_examples :
  Client._from_lowest_unit 123 = Ok (Decimal.mk false 123 (-2))
  /\ Client._to_lowest_unit (Decimal.mk false 123 (-2)) = Ok 123%Z
  /\ Client._from_lowest_unit 10000 = Ok (Decimal.mk false 100 0)
  /\ Client._to_lowest_unit (Decimal.mk false 4999 (-2)) = Ok 4999%Z.
Proof. repeat split; vm_compute; reflexivity. Qed.

(** C5, as the code has it: for every amount of minor units below
    [10^28] (at most 28 digits, the precision of the decimal context),
    [_from_lowest_unit] is the exact decimal with at most two fraction
    digits and [_to_lowest_unit] takes it back to the amount. *)
Theorem lowest_unit_round_trip (x : Z) :
  (0 <= x < 10 ^ 28)%Z ->
  exists d, Client._from_lowest_unit x = Ok d
            /\ Decimal.sign d = false
            /\ (-2 <= Decimal.exp d <= 0)%Z
            /\ (Decimal.coeff d * 10 ^ (Decimal.exp d + 2))%Z = x
            /\ Client._to_lowest_unit d = Ok x.
Proof.
  intros [H0 Hlt].
  destruct (Z.eq_dec x 0) as [->|Hx].
  { exists (Decimal.mk false 0 0). repeat split; try (cbn; lia);
      vm_compute; reflexivity. }
  assert (Hpos : (0 < x)%Z) by lia.
  destruct (ndigits_spec Hpos) as (H1 & _).
  pose proof (ndigits_le 28 Hpos Hlt) as H28.
  unfold Client._from_lowest_unit, Decimal.div, Decimal.of_int.
  cbn [Decimal.coeff Decimal.exp Decimal.sign].
  rewrite (Z.abs_eq x) by lia.
  change (Z.abs 100) with 100%Z. change (100 =? 0)%Z with false.
  rewrite (proj2 (Z.eqb_neq x 0) Hx).
  rewrite (proj2 (Z.ltb_ge x 0)) by lia.
  change (100 <? 0)%Z with false. cbn [xorb].
  change (Decimal.ndigits 100) with 3%Z. unfold Decimal.prec.
  set (n := Decimal.ndigits x) in *.
  rewrite (proj2 (Z.leb_le 0 (3 - n + 28 + 1))) by lia.
  set (k := Z.to_nat (30 - n)).
  assert (Hshift : (3 - n + 28 + 1 = Z.of_nat k + 2)%Z) by (unfold k; lia).
  assert (Hnum : (x * 10 ^ (3 - n + 28 + 1) = x * 10 ^ Z.of_nat k * 100)%Z).
  { rewrite Hshift, Z.pow_add_r by lia. change (10 ^ 2)%Z with 100%Z. ring. }
  rewrite Hnum, Z_mod_mult, Z_div_mult by lia.
  change (0 =? 0)%Z with true. cbv iota.
  replace (Z.to_nat (0 - 0 - (0 - 0 - (3 - n + 28 + 1)))) with (k + 2)%nat
    by lia.
  rewrite strip_pow by lia.
  replace (0 - 0 - (3 - n + 28 + 1) + Z.of_nat k)%Z with (-2)%Z by lia.
  change (0 - 0)%Z with 0%Z.
  destruct (strip_two Hpos) as (c' & e' & -> & He & Hc' & Hval).
  assert (Hc28 : (c' < 10 ^ 28)%Z).
  { assert (0 < 10 ^ (e' + 2))%Z by (apply Z.pow_pos_nonneg; lia). nia. }
  rewrite fix_small by lia.
  exists (Decimal.mk false c' e').
  cbn [Decimal.coeff Decimal.exp Decimal.sign].
  repeat split; try lia.
  unfold Client._to_lowest_unit, Decimal.mul, Decimal.of_int.
  cbn [Decimal.coeff Decimal.exp Decimal.sign].
  change (Z.abs 100) with 100%Z. change (100 <? 0)%Z with false.
  cbn [xorb].
  assert (Hcoeff : (c' * 100 = x * 10 ^ (- e'))%Z).
  { rewrite <- Hval, <- Z.mul_assoc, <- Z.pow_add_r by lia.
    replace (e' + 2 + - e')%Z with 2%Z by lia. reflexivity. }
  replace (e' + 0)%Z with (- - e')%Z by lia. rewrite Hcoeff.
  destruct (@fix_to_int_exact x (- e') Hpos Hlt ltac:(lia)) as (d & -> & Hd).
  cbn [bind]. now rewrite Hd.
Qed.

Lemma lowest_unit_round_trip_witness :
  exists d, Client._from_lowest_unit 123 = Ok d
            /\ Decimal.sign d = false
            /\ (-2 <= Decimal.exp d <= 0)%Z
            /\ (Decimal.coeff d * 10 ^ (Decimal.exp d + 2))%Z = 123%Z
            /\ Client._to_lowest_unit d = Ok 123%Z.
Proof.
  apply lowest_unit_round_trip.
  split; [intros H; discriminate H | vm_compute; reflexivity].
Defined.

(** C5, as stated, fails on an amount of 29 digits: the quotient is
    rounded to 28 digits and the last digit is lost. *)
Lemma lowest_unit_round_trip_beyond_precision :
  (r <- Client._from_lowest_unit (10 ^ 28 + 1) ;; Client._to_lowest_unit r)%result
  = Ok (10 ^ 28)%Z
  /\ ~ (forall x : Z, (0 <= x)%Z ->
          (r <- Client._from_lowest_unit x ;; Client._to_lowest_unit r)%result
          = Ok x).
Proof.
  assert (H : (r <- Client._from_lowest_unit (10 ^ 28 + 1) ;;
               Client._to_lowest_unit r)%result = Ok (10 ^ 28)%Z)
    by (vm_compute; reflexivity).
  split; [exact H|].
  intros Hall.
  assert (H0 : (0 <= 10 ^ 28 + 1)%Z) by (vm_compute; discriminate).
  specialize (Hall (10 ^ 28 + 1)%Z H0).
  rewrite H in Hall. revert Hall. vm_compute. discriminate.
Qed.

(* ================================================================== *)
(** * Part III: further properties of the adapter *)
(* ================================================================== *)

(** ** The shape of a signature *)

Lemma be_bytes_length (len : nat) (n : N) :
  List.length (Sha256.be_bytes len n) = len.
Proof. induction len as [|len IH]; simpl; congruence. Qed.

Lemma sha256_digest_length (msg : list byte) :
  List.length (Sha256.digest msg) = 32%nat.
Proof.
  unfold Sha256.digest.
  destruct (Sha256.blocks _ _ _) as [[[[[[[a b] c] d] e] f] g] h].
  rewrite !length_app, !be_bytes_length. reflexivity.
Qed.

Lemma hmac_digest_length (key msg : list byte) :
  List.length (Hmac.digest key msg) = 32%nat.
Proof. apply sha256_digest_length. Qed.

Lemma b64encode_length (b : list byte) :
  List.length (Base64.b64encode b)
  = (4 * ((List.length b + 2) / 3))%nat.
Proof.
  assert (H : forall n (l : list byte), (List.length l <= n)%nat ->
              List.length (Base64.b64encode l)
              = (4 * ((List.length l + 2) / 3))%nat).
  { induction n as [|n IH]; intros l Hl.
    - destruct l; [reflexivity|simpl in Hl; lia].
    - destruct l as [|b0 [|b1 [|b2 rest]]]; try reflexivity.
      cbn [Base64.b64encode List.length].
      rewrite IH by (simpl in Hl; lia).
      replace (S (S (S (List.length rest))) + 2)%nat
        with (List.length rest + 2 + 1 * 3)%nat by lia.
      rewrite Nat.div_add by lia. lia. }
  now apply (H (List.length b)).
Qed.

(** The last character of the base64 text of 32 bytes is the padding. *)
Lemma b64encode_32_padded (b : list byte) :
  List.length b = 32%nat ->
  List.last (Str.decode_ascii (Base64.b64encode b)) 0%N = 61%N.
Proof.
  intros H.
  do 32 (destruct b as [|? b]; [discriminate H|]).
  destruct b; [|discriminate H]. reflexivity.
Qed.

Lemma hmac_b64_shape (key msg sig : str) :
  Client.hmac_b64 key msg = Ok sig ->
  List.length sig = 44%nat /\ Str.isascii sig = true
  /\ List.last sig 0%N = 61%N.
Proof.
  intros Hs. split; [|split].
  - revert Hs. unfold Client.hmac_b64.
    destruct (Str.encode key); [|discriminate].
    destruct (Str.encode msg); [|discriminate].
    cbn [bind]. intros [= <-]. unfold Str.decode_ascii.
    rewrite length_map, b64encode_length, hmac_digest_length. reflexivity.
  - exact (hmac_b64_ascii _ _ Hs).
  - revert Hs. unfold Client.hmac_b64.
    destruct (Str.encode key); [|discriminate].
    destruct (Str.encode msg); [|discriminate].
    cbn [bind]. intros [= <-].
    apply b64encode_32_padded, hmac_digest_length.
Qed.

(** Both signatures are 44 ASCII characters, the last one [=]. *)
Theorem signature_shape (self : Client.PaynowClient)
    (api_key idempotency_key body : str) (parameters : Dict.dict str)
    (sig : str) :
  Client._calculate_request_signature self api_key idempotency_key body
    parameters = Ok sig
  \/ Client._calculate_notification_signature self body = Ok sig ->
  List.length sig = 44%nat
  /\ Str.isascii sig = true
  /\ List.last sig 0%N = 61%N.
Proof. intros [Hs|Hs]; exact (hmac_b64_shape _ _ Hs). Qed.

Lemma signature_shape_witness :
  List.length (lit "F69sbjUxBX4eFjfUal/Y9XGREbfaRjh/zdq9j4MWeHM=") = 44%nat
  /\ Str.isascii (lit "F69sbjUxBX4eFjfUal/Y9XGREbfaRjh/zdq9j4MWeHM=") = true
  /\ List.last (lit "F69sbjUxBX4eFjfUal/Y9XGREbfaRjh/zdq9j4MWeHM=") 0%N
     = 61%N.
Proof.
  apply (@signature_shape Fixture.client Fixture.api_key
           Fixture.idempotency_key
           (lit "{" ++ [10%N]
            ++ lit "    " ++ Fixture.quoted (lit "paymentId") ++ lit ": "
            ++ Fixture.quoted (lit "NOLV-8F9-08K-WGD") ++ lit "," ++ [10%N]
            ++ lit "    " ++ Fixture.quoted (lit "externalId") ++ lit ": "
            ++ Fixture.quoted (lit "9fea23c7-cd5c-4884-9842-6f8592be65df")
            ++ lit "," ++ [10%N]
            ++ lit "    " ++ Fixture.quoted (lit "status") ++ lit ": "
            ++ Fixture.quoted (lit "CONFIRMED") ++ lit "," ++ [10%N]
            ++ lit "    " ++ Fixture.quoted (lit "modifiedAt") ++ lit ": "
            ++ Fixture.quoted (lit "2018-12-12T13:24:52") ++ [10%N]
            ++ lit "}") []).
  right. vm_compute. reflexivity.
Defined.

(** ** What the verifier accepts *)

(** [verify_callback] returns normally exactly when the [Signature]
    header is the signature of the raw body (of the empty body when none
    was passed). *)
Theorem verify_callback_accepts_iff (config : Processor.Config)
    (data headers : Dict.dict str) (raw_body : option str) :
  Processor.verify_callback config data headers raw_body = Ok tt
  <-> Client._calculate_notification_signature (Processor._get_client config)
        (match raw_body with Some b => b | None => [] end)
      = Ok (Dict.get headers (lit "Signature") []).
Proof.
  unfold Processor.verify_callback.
  set (body := match raw_body with Some b => b | None => [] end).
  set (received := Dict.get headers (lit "Signature") []).
  split.
  - destruct received as [|c r] eqn:Er; [discriminate|].
    destruct (Client._calculate_notification_signature _ body) as [sig|e];
      [|discriminate].
    cbn [bind]. unfold Hmac.compare_digest.
    destruct (Str.isascii sig && Str.isascii (c :: r)); [|discriminate].
    cbn [bind]. destruct (Str.eqb sig (c :: r)) eqn:E; [|discriminate].
    apply str_eqb_eq in E. now subst.
  - intros Hs.
    destruct (hmac_b64_shape _ _ Hs) as (Hlen & Hasc & _).
    destruct received as [|c r]; [discriminate Hlen|].
    rewrite Hs. cbn [bind]. unfold Hmac.compare_digest.
    rewrite Hasc. cbn [andb bind]. now rewrite str_eqb_refl.
Qed.

(** With an encodable key and body and an ASCII header, the verifier
    either accepts or raises [InvalidCallbackError], as its docstring
    says. *)
Theorem verify_callback_outcomes (config : Processor.Config)
    (data headers : Dict.dict str) (raw_body : option str) (sig : str) :
  Client._calculate_notification_signature (Processor._get_client config)
    (match raw_body with Some b => b | None => [] end) = Ok sig ->
  Str.isascii (Dict.get headers (lit "Signature") []) = true ->
  Processor.verify_callback config data headers raw_body = Ok tt
  \/ exists msg,
       Processor.verify_callback config data headers raw_body
       = Raise (InvalidCallbackError msg).
Proof.
  intros Hs Hasc. unfold Processor.verify_callback.
  destruct (Dict.get headers (lit "Signature") []) as [|c r];
    [right; eexists; reflexivity|].
  rewrite Hs. cbn [bind]. unfold Hmac.compare_digest.
  rewrite (hmac_b64_ascii _ _ Hs), Hasc. cbn [andb bind].
  destruct (Str.eqb sig (c :: r)); [left|right; eexists]; reflexivity.
Qed.

Lemma verify_callback_outcomes_witness :
  Processor.verify_callback Fixture.config
    (Fixture.notification (lit "CONFIRMED"))
    [(lit "Signature", lit "bad_signature")]
    (Some Fixture.notification_body) = Ok tt
  \/ exists msg,
       Processor.verify_callback Fixture.config
         (Fixture.notification (lit "CONFIRMED"))
         [(lit "Signature", lit "bad_signature")]
         (Some Fixture.notification_body)
       = Raise (InvalidCallbackError msg).
Proof.
  apply (@verify_callback_outcomes Fixture.config
           (Fixture.notification (lit "CONFIRMED"))
           [(lit "Signature", lit "bad_signature")]
           (Some Fixture.notification_body)
           (lit "GsZkOYlwN92ZXMSr6hwlo/P2pG3cMyzCJrnc7/JvgaQ=")).
  - vm_compute. reflexivity.
  - reflexivity.
Defined.

(** ** The signed text *)

Lemma isascii_app (a b : str) :
  Str.isascii (a ++ b) = Str.isascii a && Str.isascii b.
Proof. apply forallb_app. Qed.

Lemma hex_digit_ascii (n : N) : (Json.hex_digit n <? 128)%N = true.
Proof.
  unfold Json.hex_digit.
  assert (H : (N.to_nat (n mod 16) < 16)%nat).
  { pose proof (N.mod_upper_bound n 16 ltac:(discriminate)). lia. }
  revert H. generalize (N.to_nat (n mod 16)) as i. intros i H.
  do 16 (destruct i as [|i]; [vm_compute; reflexivity|]). lia.
Qed.

Lemma u_escape_ascii (n : N) : Str.isascii (Json.u_escape n) = true.
Proof.
  unfold Json.u_escape, Str.isascii. cbn [forallb].
  rewrite !hex_digit_ascii. reflexivity.
Qed.

Lemma escape_char_ascii (c : N) : Str.isascii (Json.escape_char c) = true.
Proof.
  unfold Json.escape_char.
  repeat match goal with
         | |- context [(c =? ?k)%N] => destruct (c =? k)%N; [reflexivity|]
         end.
  destruct ((32 <=? c)%N && (c <=? 126)%N) eqn:E.
  - apply andb_prop in E. destruct E as [_ E]. apply N.leb_le in E.
    unfold Str.isascii. cbn [forallb].
    rewrite (proj2 (N.ltb_lt c 128)) by lia. reflexivity.
  - destruct (c <? 65536)%N; [apply u_escape_ascii|].
    rewrite isascii_app, !u_escape_ascii. reflexivity.
Qed.

Lemma encode_basestring_ascii_ascii (s : str) :
  Str.isascii (Json.encode_basestring_ascii s) = true.
Proof.
  unfold Json.encode_basestring_ascii. rewrite !isascii_app.
  assert (H : Str.isascii (List.flat_map Json.escape_char s) = true).
  { induction s as [|c s IH]; [reflexivity|].
    cbn [List.flat_map]. now rewrite isascii_app, escape_char_ascii, IH. }
  rewrite H. reflexivity.
Qed.

(** [json.dumps] only emits ASCII. *)
Lemma dumps_ascii : forall j : Json.json, Str.isascii (Json.dumps j) = true.
Proof.
  fix IH 1. intros [s|items].
  - apply encode_basestring_ascii_ascii.
  - cbn [Json.dumps]. rewrite !isascii_app.
    match goal with
    | |- _ && (Str.isascii (?f items) && _) = true =>
        assert (H : Str.isascii (f items) = true)
    end.
    { induction items as [|[k v] items IHitems]; [reflexivity|].
      rewrite !isascii_app, encode_basestring_ascii_ascii, IH.
      destruct items; [reflexivity|].
      rewrite isascii_app, IHitems. reflexivity. }
    rewrite H. reflexivity.
Qed.

Lemma encode_ascii (s : str) :
  Str.isascii s = true -> Str.encode s = Ok (List.map Str.byte_of_N s).
Proof.
  induction s as [|c s IH]; [reflexivity|].
  unfold Str.isascii. cbn [forallb]. intros H.
  apply andb_prop in H. destruct H as [Hc Hs].
  cbn [Str.encode List.map]. unfold Str.encode_char.
  change 128%N with 0x80%N in Hc. rewrite Hc. cbn [bind].
  rewrite (IH Hs). reflexivity.
Qed.

(** [_calculate_request_signature] cannot fail because of the body or of
    the parameters, whatever characters they hold: the signed text is
    ASCII. It returns a signature when the signature key can be encoded,
    and raises the key's encoding error otherwise. *)
Theorem request_signature_total (self : Client.PaynowClient)
    (api_key idempotency_key body : str) (parameters : Dict.dict str) :
  Str.isascii (Client.request_payload_json api_key idempotency_key body
                 parameters) = true
  /\ match Str.encode (Client.signature_key self) with
     | Ok _ =>
         exists sig,
           Client._calculate_request_signature self api_key idempotency_key
             body parameters = Ok sig
     | Raise e =>
         Client._calculate_request_signature self api_key idempotency_key
           body parameters = Raise e
     end.
Proof.
  assert (Ha : Str.isascii (Client.request_payload_json api_key
                              idempotency_key body parameters) = true)
    by apply dumps_ascii.
  split; [exact Ha|].
  unfold Client._calculate_request_signature, Client.hmac_b64.
  destruct (Str.encode (Client.signature_key self)); [|reflexivity].
  cbn [bind]. rewrite (encode_ascii _ Ha). cbn [bind].
  eexists; reflexivity.
Qed.

Lemma encode_raises (s : str) (e : exn) :
  Str.encode s = Raise e -> e = UnicodeEncodeError.
Proof.
  induction s as [|c s IH]; [discriminate|].
  cbn [Str.encode]. unfold Str.encode_char.
  repeat match goal with
         | |- context [if ?b then _ else _] => destruct b
         end; cbn [bind]; try (intros [= <-]; reflexivity);
    destruct (Str.encode s); cbn [bind]; try discriminate;
    intros [= <-]; now apply IH.
Qed.

Lemma encode_surrogate (s : str) (c : N) :
  In c s -> (0xD800 <= c <= 0xDFFF)%N ->
  Str.encode s = Raise UnicodeEncodeError.
Proof.
  intros Hin Hc.
  assert (H : exists e, Str.encode s = Raise e).
  { induction s as [|x s IH]; [destruct Hin|].
    cbn [Str.encode]. destruct (Str.encode_char x) eqn:Ex.
    - destruct Hin as [->|Hin].
      + exfalso. revert Ex. unfold Str.encode_char.
        rewrite (proj2 (N.ltb_ge c 128)), (proj2 (N.ltb_ge c 2048)) by lia.
        rewrite (proj2 (N.leb_le 55296 c)), (proj2 (N.leb_le c 57343)) by lia.
        discriminate.
      + destruct (IH Hin) as [e He]. cbn [bind]. rewrite He.
        eexists; reflexivity.
    - eexists; reflexivity. }
  destruct H as [e He]. now rewrite He, (encode_raises _ He).
Qed.

(** The notification signature is computed over the body itself: a body
    with a lone surrogate cannot be encoded, and the verifier then fails
    with [UnicodeEncodeError], not with [InvalidCallbackError]. *)
Theorem notification_signature_unencodable_body (config : Processor.Config)
    (data headers : Dict.dict str) (raw_body : str) (c : N) :
  In c raw_body -> (0xD800 <= c <= 0xDFFF)%N ->
  Dict.get headers (lit "Signature") [] <> [] ->
  Client._calculate_notification_signature (Processor._get_client config)
    raw_body = Raise UnicodeEncodeError
  /\ Processor.verify_callback config data headers (Some raw_body)
     = Raise UnicodeEncodeError.
Proof.
  intros Hin Hc Hsig.
  assert (H : Client._calculate_notification_signature
                (Processor._get_client config) raw_body
              = Raise UnicodeEncodeError).
  { unfold Client._calculate_notification_signature, Client.hmac_b64.
    destruct (Str.encode _) as [k|e] eqn:Ek.
    - cbn [bind]. now rewrite (encode_surrogate _ Hin Hc).
    - now rewrite (encode_raises _ Ek). }
  split; [exact H|].
  unfold Processor.verify_callback.
  destruct (Dict.get headers (lit "Signature") []) as [|x r]; [congruence|].
  rewrite H. reflexivity.
Qed.

Lemma notification_signature_unencodable_body_witness :
  Client._calculate_notification_signature
    (Processor._get_client Fixture.config) [0xD800%N]
  = Raise UnicodeEncodeError
  /\ Processor.verify_callback Fixture.config []
       [(lit "Signature", lit "x")] (Some [0xD800%N])
     = Raise UnicodeEncodeError.
Proof.
  apply (@notification_signature_unencodable_body Fixture.config []
           [(lit "Signature", lit "x")] [0xD800%N] 0xD800%N).
  - now left.
  - split; intros H; discriminate H.
  - discriminate.
Defined.

(** ** The canonical payload *)

Lemma setitem_fresh (V : Type) (k : str) (v : V) (d : Dict.dict V) :
  ~ In k (List.map fst d) -> Dict.setitem k v d = d ++ [(k, v)].
Proof.
  induction d as [|[k' v'] d IH]; intros Hn; [reflexivity|].
  cbn [Dict.setitem]. destruct (Str.eqb k' k) eqn:E.
  - apply str_eqb_eq in E. subst. exfalso. apply Hn. now left.
  - cbn [app]. f_equal. apply IH. intros H. apply Hn. now right.
Qed.

Lemma of_items_acc (V : Type) (l acc : list (str * V)) :
  NoDup (List.map fst (acc ++ l)) ->
  List.fold_left (fun d kv => Dict.setitem (fst kv) (snd kv) d) l acc
  = acc ++ l.
Proof.
  revert acc; induction l as [|[k v] l IH]; intros acc Hnd.
  - now rewrite app_nil_r.
  - cbn [List.fold_left fst snd].
    assert (Hk : ~ In k (List.map fst acc)).
    { rewrite map_app in Hnd. cbn [List.map fst] in Hnd.
      apply NoDup_remove_2 in Hnd. intros H. apply Hnd.
      apply in_or_app. now left. }
    rewrite (@setitem_fresh V k v acc Hk), IH.
    + now rewrite <- app_assoc.
    + now rewrite <- app_assoc.
Qed.

(** [dict(pairs)] keeps a list of pairs with distinct keys as it is. *)
Lemma of_items_nodup (V : Type) (l : list (str * V)) :
  NoDup (List.map fst l) -> Dict.of_items l = l.
Proof. intros H. unfold Dict.of_items. now rewrite of_items_acc. Qed.

(** The signed text always has the headers in the order [Api-Key],
    [Idempotency-Key], whatever their values; the parameters appear in it
    in ascending key order, and they are exactly the bindings given:
    sorting and rebuilding the dict loses nothing. *)
Theorem request_payload_canonical (api_key idempotency_key body : str)
    (parameters : Dict.dict str) :
  Dict.wf parameters ->
  let enc := Json.encode_basestring_ascii in
  let sorted_params := Sorting.sorted (Dict.items parameters) in
  Client.request_payload_json api_key idempotency_key body parameters
  = lit "{" ++ enc (lit "headers") ++ lit ":"
    ++ (lit "{" ++ enc (lit "Api-Key") ++ lit ":" ++ enc api_key ++ lit ","
        ++ enc (lit "Idempotency-Key") ++ lit ":" ++ enc idempotency_key
        ++ lit "}")
    ++ lit "," ++ enc (lit "parameters") ++ lit ":"
    ++ Json.dumps (Json.of_dict sorted_params)
    ++ lit "," ++ enc (lit "body") ++ lit ":" ++ enc body ++ lit "}"
  /\ StronglySorted key_lt sorted_params
  /\ Permutation sorted_params (Dict.items parameters).
Proof.
  intros Hwf enc sorted_params. split; [|split].
  - unfold Client.request_payload_json.
    fold sorted_params.
    rewrite (@of_items_nodup _ sorted_params).
    + assert (Hh : Dict.of_items
                     (Sorting.sorted
                        (Dict.items [(lit "Api-Key", api_key);
                                     (lit "Idempotency-Key", idempotency_key)]))
                   = [(lit "Api-Key", api_key);
                      (lit "Idempotency-Key", idempotency_key)])
        by reflexivity.
      rewrite Hh.
      subst enc. generalize (Json.of_dict sorted_params) as J. intros J.
      cbn [Json.dumps Json.of_dict List.map fst snd].
      rewrite ?app_nil_l, <- ?app_assoc. reflexivity.
    + eapply Permutation_NoDup; [|exact Hwf].
      apply Permutation_map. symmetry. apply sorted_perm.
  - now apply sorted_sorted.
  - apply sorted_perm.
Qed.

Lemma request_payload_canonical_witness :
  StronglySorted key_lt
    (Sorting.sorted [(lit "currency", lit "PLN"); (lit "amount", lit "100")])
  /\ Permutation
       (Sorting.sorted [(lit "currency", lit "PLN"); (lit "amount", lit "100")])
       [(lit "currency", lit "PLN"); (lit "amount", lit "100")].
Proof.
  assert (Hwf : Dict.wf [(lit "currency", lit "PLN");
                         (lit "amount", lit "100")]).
  { unfold Dict.wf. simpl. constructor.
    - intros [H|[]]. discriminate H.
    - constructor; [intros []|constructor]. }
  exact (proj2 (@request_payload_canonical Fixture.api_key
                  Fixture.idempotency_key [] _ Hwf)).
Defined.

(** ** Amounts and minor units, further *)

Section DecimalMore.
Local Open Scope Z_scope.

(** A coefficient of at most 28 digits with an exponent in range is left
    as it is by [_fix]. *)
Lemma fix_no_rounding (s : bool) (c e : Z) :
  0 < c -> c < 10 ^ 28 -> Decimal.Etiny <= e <= Decimal.Etop ->
  Decimal.fix_ (Decimal.mk s c e) = Ok (Decimal.mk s c e).
Proof.
  intros Hpos Hlt He.
  destruct (ndigits_spec Hpos) as (H1 & _).
  pose proof (ndigits_le 28 Hpos Hlt) as H28.
  unfold Decimal.fix_. cbn [Decimal.coeff Decimal.exp Decimal.sign].
  unfold Decimal.Etop, Decimal.Etiny, Decimal.Emax, Decimal.Emin,
    Decimal.prec in *.
  set (n := Decimal.ndigits c) in *.
  rewrite (proj2 (Z.eqb_neq c 0)) by lia.
  rewrite Z.gtb_ltb, (proj2 (Z.ltb_ge _ _)) by lia.
  destruct (Z.ltb_spec (n + e - 28) (-999999 - 28 + 1));
    rewrite (proj2 (Z.ltb_ge _ _)) by lia; reflexivity.
Qed.

(** The signed counterpart of [fix_to_int_exact]. *)
Lemma fix_to_int_exact_signed (s : bool) (v k : Z) :
  0 < v -> v < 10 ^ 28 -> 0 <= k ->
  exists d, Decimal.fix_ (Decimal.mk s (v * 10 ^ k) (- k)) = Ok d
            /\ Decimal.to_int d = if s then - v else v.
Proof.
  intros Hpos Hlt Hk.
  destruct (ndigits_spec Hpos) as (H1 & _).
  pose proof (ndigits_le 28 Hpos Hlt) as H28.
  assert (Hp : 0 < 10 ^ k) by (apply Z.pow_pos_nonneg; lia).
  unfold Decimal.fix_. cbn [Decimal.coeff Decimal.exp Decimal.sign].
  unfold Decimal.Etop, Decimal.Etiny, Decimal.Emax, Decimal.Emin,
    Decimal.prec.
  rewrite ndigits_mul_pow by lia.
  set (n := Decimal.ndigits v) in *.
  assert (Hc : v * 10 ^ k <> 0) by nia.
  rewrite (proj2 (Z.eqb_neq _ _) Hc).
  rewrite Z.gtb_ltb.
  rewrite (proj2 (Z.ltb_ge _ _)) by lia.
  rewrite (proj2 (Z.ltb_ge (n + k + - k - 28) _)) by lia.
  destruct (Z.ltb_spec (- k) (n + k + - k - 28)) as [Hr|Hr].
  - rewrite (proj2 (Z.ltb_ge _ 0)) by lia.
    set (j := n + k + - k - 28 - - k).
    assert (Hj : 0 < j <= k) by (unfold j; lia).
    assert (Hsplit : v * 10 ^ k = v * 10 ^ (k - j) * 10 ^ j).
    { rewrite <- Z.mul_assoc, <- Z.pow_add_r by lia. do 2 f_equal. lia. }
    assert (Hpj : 0 < 10 ^ j) by (apply Z.pow_pos_nonneg; lia).
    rewrite Hsplit, Z_mod_mult, Z_div_mult by lia.
    rewrite (proj2 (Z.ltb_ge _ _)) by lia.
    rewrite (proj2 (Z.eqb_neq _ _)) by lia.
    cbn [orb andb].
    rewrite Z.gtb_ltb, (proj2 (Z.ltb_ge _ _)) by lia.
    eexists; split; [reflexivity|].
    unfold Decimal.to_int. cbn [Decimal.coeff Decimal.exp Decimal.sign].
    assert (Hm : (if 0 <=? n + k + - k - 28
                  then v * 10 ^ (k - j) * 10 ^ (n + k + - k - 28)
                  else v * 10 ^ (k - j) / 10 ^ (- (n + k + - k - 28))) = v).
    { destruct (Z.leb_spec 0 (n + k + - k - 28)) as [H0|H0].
      + replace (n + k + - k - 28) with 0 by lia.
        replace (k - j) with 0 by (unfold j; lia).
        rewrite !Z.pow_0_r. lia.
      + replace (- (n + k + - k - 28)) with (k - j) by (unfold j; lia).
        assert (0 < 10 ^ (k - j)) by (apply Z.pow_pos_nonneg; lia).
        apply Z_div_mult. lia. }
    rewrite Hm. reflexivity.
  - eexists; split; [reflexivity|].
    unfold Decimal.to_int. cbn [Decimal.coeff Decimal.exp Decimal.sign].
    assert (Hm : (if 0 <=? - k then v * 10 ^ k * 10 ^ (- k)
                  else v * 10 ^ k / 10 ^ (- - k)) = v).
    { destruct (Z.leb_spec 0 (- k)) as [H0|H0].
      + replace k with 0 by lia. cbn. lia.
      + replace (- - k) with k by lia. apply Z_div_mult. lia. }
    rewrite Hm. reflexivity.
Qed.

(** [_from_lowest_unit] on an amount of either sign below [10^28]. *)
Lemma from_lowest_unit_value (x : Z) :
  x <> 0 -> Z.abs x < 10 ^ 28 ->
  exists c e, Client._from_lowest_unit x = Ok (Decimal.mk (x <? 0) c e)
              /\ -2 <= e <= 0 /\ 0 < c /\ c * 10 ^ (e + 2) = Z.abs x.
Proof.
  intros Hx Hlt.
  assert (Hpos : 0 < Z.abs x) by lia.
  destruct (ndigits_spec Hpos) as (H1 & _).
  pose proof (ndigits_le 28 Hpos Hlt) as H28.
  unfold Client._from_lowest_unit, Decimal.div, Decimal.of_int.
  cbn [Decimal.coeff Decimal.exp Decimal.sign].
  change (Z.abs 100) with 100. change (100 =? 0) with false.
  rewrite (proj2 (Z.eqb_neq (Z.abs x) 0)) by lia.
  change (100 <? 0) with false. rewrite xorb_false_r.
  change (Decimal.ndigits 100) with 3. unfold Decimal.prec.
  set (a := Z.abs x) in *.
  set (n := Decimal.ndigits a) in *.
  rewrite (proj2 (Z.leb_le 0 (3 - n + 28 + 1))) by lia.
  set (k := Z.to_nat (30 - n)).
  assert (Hshift : 3 - n + 28 + 1 = Z.of_nat k + 2) by (unfold k; lia).
  assert (Hnum : a * 10 ^ (3 - n + 28 + 1) = a * 10 ^ Z.of_nat k * 100).
  { rewrite Hshift, Z.pow_add_r by lia. change (10 ^ 2) with 100. ring. }
  rewrite Hnum, Z_mod_mult, Z_div_mult by lia.
  change (0 =? 0) with true. cbv iota.
  replace (Z.to_nat (0 - 0 - (0 - 0 - (3 - n + 28 + 1)))) with (k + 2)%nat
    by lia.
  rewrite strip_pow by lia.
  replace (0 - 0 - (3 - n + 28 + 1) + Z.of_nat k) with (-2) by lia.
  change (0 - 0) with 0.
  destruct (strip_two Hpos) as (c' & e' & -> & He & Hc' & Hval).
  assert (Hc28 : c' < 10 ^ 28).
  { assert (0 < 10 ^ (e' + 2)) by (apply Z.pow_pos_nonneg; lia). nia. }
  rewrite fix_small by lia.
  exists c', e'. repeat split; lia.
Qed.

(** [_to_lowest_unit] on an amount of at most 26 digits: nothing is
    rounded, the product is cut off at the decimal point. *)
Lemma to_lowest_unit_value (s : bool) (c e : Z) :
  0 <= c < 10 ^ 26 -> Decimal.Etiny <= e <= Decimal.Etop ->
  Client._to_lowest_unit (Decimal.mk s c e)
  = Ok (let m := if 0 <=? e then c * 100 * 10 ^ e
                 else c * 100 / 10 ^ (- e) in
        if s then - m else m).
Proof.
  intros [H0 Hlt] He.
  unfold Client._to_lowest_unit, Decimal.mul, Decimal.of_int.
  cbn [Decimal.coeff Decimal.exp Decimal.sign].
  change (Z.abs 100) with 100. change (100 <? 0) with false.
  rewrite xorb_false_r, Z.add_0_r.
  destruct (Z.eq_dec c 0) as [->|Hc].
  - unfold Decimal.fix_, Decimal.to_int.
    cbn [Decimal.coeff Decimal.exp Decimal.sign bind].
    change (0 * 100 =? 0) with true. cbv iota.
    cbn [Decimal.coeff Decimal.exp Decimal.sign bind].
    rewrite !Z.mul_0_l, !Zdiv_0_l.
    destruct (0 <=? _), (0 <=? e), s; reflexivity.
  - assert (E : 10 ^ 26 * 100 = 10 ^ 28) by (vm_compute; reflexivity).
    rewrite fix_no_rounding by lia. reflexivity.
Qed.

End DecimalMore.

(** [_to_lowest_unit] cuts the amount off after the second fraction
    digit, towards zero: for an amount of at most 26 digits the result is
    the quotient, truncated, of the amount in hundredths. Nothing is
    rounded up: 1.999 gives 199, -1.999 gives -199. *)
Theorem to_lowest_unit_truncates (s : bool) (c e : Z) :
  (0 <= c < 10 ^ 26)%Z -> (Decimal.Etiny <= e < 0)%Z ->
  Client._to_lowest_unit (Decimal.mk s c e)
  = Ok (Z.quot ((if s then - c else c) * 100) (10 ^ (- e)))%Z.
Proof.
  intros Hc He.
  assert (He' : (Decimal.Etiny <= e <= Decimal.Etop)%Z)
    by (unfold Decimal.Etiny, Decimal.Etop, Decimal.Emin, Decimal.Emax,
          Decimal.prec in *; lia).
  rewrite (to_lowest_unit_value s Hc He'). cbv zeta.
  rewrite (proj2 (Z.leb_gt 0 e)) by lia.
  assert (Hp : (0 < 10 ^ (- e))%Z) by (apply Z.pow_pos_nonneg; lia).
  f_equal. destruct s.
  - rewrite Z.mul_opp_l, Z.quot_opp_l by lia.
    rewrite Z.quot_div_nonneg by lia. reflexivity.
  - rewrite Z.quot_div_nonneg by lia. reflexivity.
Qed.

Lemma to_lowest_unit_truncates_witness :
  Client._to_lowest_unit (Decimal.mk true 1999 (-3)) = Ok (-199)%Z.
Proof.
  apply (@to_lowest_unit_truncates true 1999 (-3));
    split; try (intros H; discriminate H); vm_compute; reflexivity.
Defined.



(** The round trip from minor units also holds for negative amounts: for
    every integer of absolute value below [10^28], [_from_lowest_unit]
    gives a decimal of the same sign that [_to_lowest_unit] takes back to
    it. *)
Theorem lowest_unit_round_trip_signed (x : Z) :
  (Z.abs x < 10 ^ 28)%Z ->
  exists d, Client._from_lowest_unit x = Ok d
            /\ (x <> 0%Z -> Decimal.sign d = (x <? 0)%Z)
            /\ Client._to_lowest_unit d = Ok x.
Proof.
  intros Hlt.
  destruct (Z.eq_dec x 0) as [->|Hx].
  { exists (Decimal.mk false 0 0). repeat split; try congruence;
      vm_compute; reflexivity. }
  destruct (from_lowest_unit_value Hx Hlt) as (c & e & Hf & He & Hc & Hv).
  exists (Decimal.mk (x <? 0)%Z c e). split; [exact Hf|].
  split; [reflexivity|].
  unfold Client._to_lowest_unit, Decimal.mul, Decimal.of_int.
  cbn [Decimal.coeff Decimal.exp Decimal.sign].
  change (Z.abs 100) with 100%Z. change (100 <? 0)%Z with false.
  rewrite xorb_false_r.
  assert (Hcoeff : (c * 100 = Z.abs x * 10 ^ (- e))%Z).
  { rewrite <- Hv, <- Z.mul_assoc, <- Z.pow_add_r by lia.
    replace (e + 2 + - e)%Z with 2%Z by lia. reflexivity. }
  replace (e + 0)%Z with (- - e)%Z by lia. rewrite Hcoeff.
  destruct (@fix_to_int_exact_signed (x <? 0)%Z (Z.abs x) (- e)
              ltac:(lia) Hlt ltac:(lia)) as (d & -> & Hd).
  cbn [bind]. rewrite Hd. f_equal.
  destruct (Z.ltb_spec x 0); lia.
Qed.

Lemma lowest_unit_round_trip_signed_witness :
  exists d, Client._from_lowest_unit (-550) = Ok d
            /\ ((-550)%Z <> 0%Z -> Decimal.sign d = (-550 <? 0)%Z)
            /\ Client._to_lowest_unit d = Ok (-550)%Z.
Proof.
  apply lowest_unit_round_trip_signed. vm_compute. reflexivity.
Defined.

(** ** Notification handling, further *)

Lemma dict_get_missing (V : Type) (d : Dict.dict V) (k : str) (default : V) :
  ~ In k (List.map fst d) -> Dict.get d k default = default.
Proof.
  induction d as [|[k' v] d IH]; intros Hn; [reflexivity|].
  cbn [Dict.get]. destruct (Str.eqb k' k) eqn:E.
  - apply str_eqb_eq in E. subst. exfalso. apply Hn. now left.
  - apply IH. intros H. apply Hn. now right.
Qed.

Lemma failure_status_tests (status : str) :
  In status Processor.failure_statuses ->
  Str.eqb status (PaynowPaymentStatus.value PaynowPaymentStatus.CONFIRMED)
  = false
  /\ List.existsb (Str.eqb status) Processor.failure_statuses = true.
Proof.
  intros Hin. split.
  - destruct Hin as [<-|[<-|[<-|[<-|[]]]]]; reflexivity.
  - apply existsb_exists. exists status. split; [exact Hin|].
    apply str_eqb_refl.
Qed.

Section CallbackMore.

Variables St X : Type.

Abbreviation Payment' := (Processor.Payment St X).

(** A failure notification (REJECTED, ERROR, EXPIRED, ABANDONED) only
    uses the payment's [fail] trigger: the outcome is the same under any
    two machines that agree on it. A [MachineError] of [fail] is
    swallowed, the payment staying as the trigger left it; any other
    error of [fail] comes out of the handler. *)
Theorem handle_callback_failure (m m' : Processor.Machine St X)
    (data headers : Dict.dict str) (p : Payment') :
  In (Dict.get data (lit "status") []) Processor.failure_statuses ->
  ((forall q, Processor.has_fail m q = Processor.has_fail m' q) ->
   (forall q, Processor.trigger m (lit "fail") q
              = Processor.trigger m' (lit "fail") q) ->
   Processor.handle_callback m data headers p
   = Processor.handle_callback m' data headers p)
  /\ (forall p1 r,
        Processor.has_fail m (recorded data p) = true ->
        Processor.trigger m (lit "fail") (recorded data p) = (p1, r) ->
        Processor.handle_callback m data headers p
        = (p1, match r with
               | Raise MachineError => Ok tt
               | _ => r
               end))
  /\ (Processor.has_fail m (recorded data p) = false ->
      Processor.handle_callback m data headers p = (recorded data p, Ok tt)).
Proof.
  intros Hin. destruct (failure_status_tests Hin) as [Hc Hf].
  assert (Hunf : forall mm : Processor.Machine St X,
            Processor.handle_callback mm data headers p
            = if Processor.has_fail mm (recorded data p)
              then let '(p1, r) := Processor.trigger mm (lit "fail")
                                     (recorded data p) in
                   (p1, Processor.suppress_MachineError r)
              else (recorded data p, Ok tt)).
  { intros mm. unfold Processor.handle_callback, recorded.
    rewrite Hc, Hf.
    destruct (Dict.get data (lit "paymentId") []); reflexivity. }
  split; [|split].
  - intros Hh Ht. rewrite !Hunf, Hh, Ht. reflexivity.
  - intros p1 r Hh Ht. rewrite Hunf, Hh, Ht. reflexivity.
  - intros Hh. rewrite Hunf, Hh. reflexivity.
Qed.

(** A CONFIRMED notification never uses [fail]; an error of
    [confirm_payment], a [MachineError] included, comes out of the
    handler and [mark_as_paid] is not attempted; after a successful
    [confirm_payment], only a [MachineError] of [mark_as_paid] is
    swallowed. *)
Theorem handle_callback_confirmed_errors (m m' : Processor.Machine St X)
    (data headers : Dict.dict str) (p : Payment') :
  Dict.get data (lit "status") []
  = PaynowPaymentStatus.value PaynowPaymentStatus.CONFIRMED ->
  ((forall q name, Processor.may_trigger m q name
                   = Processor.may_trigger m' q name) ->
   (forall q name, name <> lit "fail" ->
                   Processor.trigger m name q = Processor.trigger m' name q) ->
   Processor.handle_callback m data headers p
   = Processor.handle_callback m' data headers p)
  /\ (Processor.may_trigger m (recorded data p) (lit "confirm_payment")
      = true ->
      (forall p1 e,
         Processor.trigger m (lit "confirm_payment") (recorded data p)
         = (p1, Raise e) ->
         Processor.handle_callback m data headers p = (p1, Raise e))
      /\ (forall p1 p2 r,
            Processor.trigger m (lit "confirm_payment") (recorded data p)
            = (p1, Ok tt) ->
            Processor.trigger m (lit "mark_as_paid") p1 = (p2, r) ->
            Processor.handle_callback m data headers p
            = (p2, match r with
                   | Raise MachineError => Ok tt
                   | _ => r
                   end))).
Proof.
  intros Hs.
  assert (Hunf : forall mm : Processor.Machine St X,
            Processor.handle_callback mm data headers p
            = if Processor.may_trigger mm (recorded data p)
                   (lit "confirm_payment")
              then match Processor.trigger mm (lit "confirm_payment")
                           (recorded data p) with
                   | (p1, Ok _) =>
                       let '(p2, r) :=
                         Processor.trigger mm (lit "mark_as_paid") p1 in
                       (p2, Processor.suppress_MachineError r)
                   | (p1, Raise e) => (p1, Raise e)
                   end
              else (recorded data p, Ok tt)).
  { intros mm. unfold Processor.handle_callback, recorded.
    rewrite Hs, str_eqb_refl.
    destruct (Dict.get data (lit "paymentId") []); reflexivity. }
  split.
  - intros Hm Ht. rewrite !Hunf, Hm.
    rewrite (Ht _ (lit "confirm_payment")) by discriminate.
    destruct (Processor.may_trigger m' _ _); [|reflexivity].
    destruct (Processor.trigger m' (lit "confirm_payment") _) as [p1 [u|e]];
      [|reflexivity].
    rewrite (Ht _ (lit "mark_as_paid")) by discriminate. reflexivity.
  - intros Hmay. split.
    + intros p1 e Hc. rewrite Hunf, Hmay, Hc. reflexivity.
    + intros p1 p2 r Hc Hp. rewrite Hunf, Hmay, Hc, Hp. reflexivity.
Qed.

(** A notification that has neither a [status] nor a [paymentId] entry is
    ignored: the handler returns normally and the payment is the one it
    was given. *)
Theorem handle_callback_missing_keys (m : Processor.Machine St X)
    (data headers : Dict.dict str) (p : Payment') :
  ~ In (lit "status") (List.map fst data) ->
  (Processor.handle_callback m data headers p = (recorded data p, Ok tt))
  /\ (~ In (lit "paymentId") (List.map fst data) ->
      Processor.handle_callback m data headers p = (p, Ok tt)).
Proof.
  intros Hs.
  assert (H : Processor.handle_callback m data headers p
              = (recorded data p, Ok tt)).
  { unfold Processor.handle_callback, recorded.
    rewrite (@dict_get_missing _ data (lit "status") [] Hs).
    destruct (Dict.get data (lit "paymentId") []); reflexivity. }
  split; [exact H|].
  intros Hp. rewrite H. unfold recorded.
  now rewrite (@dict_get_missing _ data (lit "paymentId") [] Hp).
Qed.

End CallbackMore.

(** A duplicate REJECTED on a FAILED payment, and a REJECTED on a PREPARED
    one. *)
Lemma handle_callback_failure_witness :
  Processor.handle_callback CoreMachine.machine
    (Fixture.notification (lit "REJECTED")) []
    (Fixture.payment CoreMachine.FAILED)
  = (Processor.mkPayment (lit "test-payment-123") CoreMachine.FAILED
       (lit "PAY-123") tt, Ok tt)
  /\ Processor.handle_callback CoreMachine.machine
       (Fixture.notification (lit "REJECTED")) []
       (Fixture.payment CoreMachine.PREPARED)
     = (Processor.mkPayment (lit "test-payment-123") CoreMachine.FAILED
          (lit "PAY-123") tt, Ok tt).
Proof.
  assert (Hin : In (Dict.get (Fixture.notification (lit "REJECTED"))
                      (lit "status") [])
                   Processor.failure_statuses) by (left; reflexivity).
  split.
  - destruct (handle_callback_failure CoreMachine.machine CoreMachine.machine
                (Fixture.notification (lit "REJECTED")) []
                (Fixture.payment CoreMachine.FAILED) Hin) as (_ & H & _).
    apply (H _ (Raise MachineError)); reflexivity.
  - destruct (handle_callback_failure CoreMachine.machine CoreMachine.machine
                (Fixture.notification (lit "REJECTED")) []
                (Fixture.payment CoreMachine.PREPARED) Hin) as (_ & H & _).
    apply (H _ (Ok tt)); reflexivity.
Defined.

(** A machine whose [confirm_payment] raises although [may_trigger]
    allowed it. *)
Lemma handle_callback_confirmed_errors_witness :
  let m := Processor.mkMachine
             (fun (_ : CoreMachine.payment) _ => true)
             (fun _ p => (p, Raise MachineError))
             (fun _ => true) in
  Processor.handle_callback m (Fixture.notification (lit "CONFIRMED")) []
    (Fixture.payment CoreMachine.PREPARED)
  = (Processor.mkPayment (lit "test-payment-123") CoreMachine.PREPARED
       (lit "PAY-123") tt, Raise MachineError).
Proof.
  intros m.
  destruct (handle_callback_confirmed_errors m m
              (Fixture.notification (lit "CONFIRMED")) []
              (Fixture.payment CoreMachine.PREPARED) eq_refl) as (_ & H).
  destruct (H eq_refl) as (He & _).
  apply He. reflexivity.
Defined.

Lemma handle_callback_missing_keys_witness :
  Processor.handle_callback CoreMachine.machine
    [(lit "externalId", lit "test-payment-123")] []
    (Fixture.payment CoreMachine.PREPARED)
  = (Fixture.payment CoreMachine.PREPARED, Ok tt).
Proof.
  destruct (handle_callback_missing_keys CoreMachine.machine
              [(lit "externalId", lit "test-payment-123")] []
              (Fixture.payment CoreMachine.PREPARED)) as (_ & H).
  - intros [H|[]]. discriminate H.
  - apply H. intros [H'|[]]. discriminate H'.
Defined.

(** ** The status query, further *)

Lemma str_eqb_neq (a b : str) : a <> b -> Str.eqb a b = false.
Proof.
  intros H. destruct (Str.eqb a b) eqn:E; [|reflexivity].
  apply str_eqb_eq in E. contradiction.
Qed.

(** A status string that is no member of the enum has no entry in the
    pull table. *)
Lemma status_map_unknown (status : str) :
  (forall s, status <> PaynowPaymentStatus.value s) ->
  Dict.get Processor.status_map status None = None.
Proof.
  intros H.
  assert (Hmap : Processor.status_map
                 = List.map (fun s => (PaynowPaymentStatus.value s,
                                       spec_pull_table s))
                     PaynowPaymentStatus.members) by reflexivity.
  rewrite Hmap. unfold PaynowPaymentStatus.members.
  cbn [List.map Dict.get].
  rewrite !str_eqb_neq by (intros E; symmetry in E; exact (H _ E)).
  reflexivity.
Qed.

(** [fetch_payment_status] proposes nothing for a status outside the enum
    (a missing [status] entry included); a status code other than 200
    raises the client's error, [CredentialsError] on 401 and
    [CommunicationError] otherwise, and a 200 answer whose body does not
    parse raises the decoding error; the payment is never touched. *)
Theorem fetch_payment_status_other (St X : Type) (config : Processor.Config)
    (payment : Processor.Payment St X) (response : Client.Response) :
  (Client.status_code response <> 200%Z ->
   Processor.fetch_payment_status config response payment
   = (payment,
      Raise (if (Client.status_code response =? 401)%Z
             then credentials_error
             else communication_error response)))
  /\ (Client.status_code response = 200%Z ->
      match Client.content response with
      | None =>
          Processor.fetch_payment_status config response payment
          = (payment, Raise JSONDecodeError)
      | Some body =>
          (forall s, Dict.get body (lit "status") []
                     <> PaynowPaymentStatus.value s) ->
          Processor.fetch_payment_status config response payment
          = (payment, Ok (Processor.mkStatusResponse None))
      end).
Proof.
  unfold Processor.fetch_payment_status, Client.get_payment_status.
  cbn [snd]. split.
  - intros H. rewrite (proj2 (Z.eqb_neq _ _) H).
    unfold Client._handle_error.
    destruct (Client.status_code response =? 401)%Z; reflexivity.
  - intros H. rewrite H. change (200 =? 200)%Z with true. cbv iota.
    unfold Client.json. destruct (Client.content response) as [body|];
      [|reflexivity].
    intros Hs. cbn [bind]. now rewrite status_map_unknown.
Qed.

Lemma fetch_payment_status_other_witness :
  Processor.fetch_payment_status Fixture.config
    (Client.mkResponse 404 None) (Fixture.payment CoreMachine.PREPARED)
  = (Fixture.payment CoreMachine.PREPARED,
     Raise (CommunicationError (lit "Paynow API error (HTTP 404).")))
  /\ Processor.fetch_payment_status Fixture.config
       (Client.mkResponse 200 (Some [(lit "paymentId", lit "PAY-123")]))
       (Fixture.payment CoreMachine.PREPARED)
     = (Fixture.payment CoreMachine.PREPARED,
        Ok (Processor.mkStatusResponse None)).
Proof.
  split.
  - apply (proj1 (@fetch_payment_status_other _ _ Fixture.config
                    (Fixture.payment CoreMachine.PREPARED)
                    (Client.mkResponse 404 None))).
    discriminate.
  - apply (proj2 (@fetch_payment_status_other _ _ Fixture.config
                    (Fixture.payment CoreMachine.PREPARED)
                    (Client.mkResponse 200
                       (Some [(lit "paymentId", lit "PAY-123")])))
             eq_refl).
    intros s. destruct s; discriminate.
Defined.

(** ** When an operation succeeds *)

(** Each operation returns normally exactly on its own status codes:
    200 and 201 for the two creations, 200 alone for the three reads,
    200 and 202 for the cancellation, which is the only one that does not
    read the body; the others return the parsed body and need it to parse.
    Every operation leaves the response in [last_response], whether it
    returns or raises. *)
Theorem operations_succeed_iff (self : Client.PaynowClient)
    (response : Client.Response) (body : Dict.dict str) :
  let code := Client.status_code response in
  let parsed := Client.content response = Some body in
  (snd (Client.create_payment self response) = Ok body
   <-> (code = 200 \/ code = 201)%Z /\ parsed)
  /\ (snd (Client.create_refund self response) = Ok body
      <-> (code = 200 \/ code = 201)%Z /\ parsed)
  /\ (snd (Client.get_payment_status self response) = Ok body
      <-> code = 200%Z /\ parsed)
  /\ (snd (Client.get_refund_status self response) = Ok body
      <-> code = 200%Z /\ parsed)
  /\ (snd (Client.get_payment_methods self response) = Ok body
      <-> code = 200%Z /\ parsed)
  /\ (snd (Client.cancel_refund self response) = Ok tt
      <-> (code = 200 \/ code = 202)%Z)
  /\ Client.last_response (fst (Client.create_payment self response))
     = Some response
  /\ Client.last_response (fst (Client.create_refund self response))
     = Some response
  /\ Client.last_response (fst (Client.get_payment_status self response))
     = Some response
  /\ Client.last_response (fst (Client.get_refund_status self response))
     = Some response
  /\ Client.last_response (fst (Client.get_payment_methods self response))
     = Some response
  /\ Client.last_response (fst (Client.cancel_refund self response))
     = Some response.
Proof.
  intros code parsed. subst code parsed.
  assert (Hjson : forall (test : bool) (err : result (Dict.dict str)),
            (forall r, err <> Ok r) ->
            ((if test then Client.json response else err) = Ok body
             <-> test = true /\ Client.content response = Some body)).
  { intros test err Herr. unfold Client.json. destruct test.
    - destruct (Client.content response); split;
        [intros [= ->]; auto | intros [_ [= ->]]; auto
        | discriminate | intros [_ H]; discriminate H].
    - split; [intros H; now apply Herr in H | intros [H _]; discriminate H]. }
  assert (Herr : forall A (r : A),
            @Client._handle_error A response <> Ok r).
  { intros A r. unfold Client._handle_error.
    destruct (_ =? _)%Z; discriminate. }
  assert (Hcodes : forall codes,
            Client.in_codes codes response = true
            <-> In (Client.status_code response) codes).
  { intros codes. unfold Client.in_codes. rewrite existsb_exists. split.
    - intros (c & Hin & Hc). apply Z.eqb_eq in Hc. now subst.
    - intros Hin. eexists; split; [exact Hin|apply Z.eqb_refl]. }
  unfold Client.create_payment, Client.create_refund,
    Client.get_payment_status, Client.get_refund_status,
    Client.get_payment_methods, Client.cancel_refund.
  cbn [fst snd Client.set_last_response Client.last_response].
  split; [|split; [|split; [|split; [|split; [|split]]]]].
  - rewrite Hjson, Hcodes by apply Herr. cbn [In]. intuition lia.
  - rewrite Hjson, Hcodes.
    + cbn [In]. intuition lia.
    + intros r. destruct (_ =? _)%Z; discriminate.
  - rewrite Hjson, Z.eqb_eq by apply Herr. reflexivity.
  - rewrite Hjson, Z.eqb_eq by apply Herr. reflexivity.
  - rewrite Hjson, Z.eqb_eq by apply Herr. reflexivity.
  - destruct (Client.in_codes [200; 202]%Z response) eqn:E.
    + apply Hcodes in E. cbn [In] in E. intuition lia.
    + split; [intros H; now apply Herr in H|].
      intros H. assert (Hin : In (Client.status_code response) [200; 202]%Z)
        by (cbn [In]; lia).
      apply Hcodes in Hin. congruence.
  - repeat split.
Qed.

(** ** [types.py]: the enum values *)

Lemma lstrip_hd (s : str) :
  List.hd 0%N (PaynowPaymentStatus.lstrip_underscore s) <> 95%N.
Proof.
  induction s as [|c s IH]; [discriminate|].
  cbn [PaynowPaymentStatus.lstrip_underscore].
  destruct (N.eqb_spec c 95); [exact IH|assumption].
Qed.

Lemma lstrip_suffix (s : str) :
  exists pre, s = pre ++ PaynowPaymentStatus.lstrip_underscore s.
Proof.
  induction s as [|c s [pre IH]]; [now exists []|].
  cbn [PaynowPaymentStatus.lstrip_underscore].
  destruct (c =? 95)%N.
  - exists (c :: pre). cbn [app]. now f_equal.
  - now exists [].
Qed.

Lemma last_as_hd_rev (l : str) (d : N) : List.last l d = List.hd d (List.rev l).
Proof.
  induction l as [|x l IH] using rev_ind; [reflexivity|].
  now rewrite last_last, rev_app_distr.
Qed.

Lemma last_app_nonempty (pre x : str) (d : N) :
  x <> [] -> List.last (pre ++ x) d = List.last x d.
Proof.
  intros Hx. destruct x as [|a x] using rev_ind; [congruence|].
  now rewrite app_assoc, !last_last.
Qed.

Lemma lstrip_id (s : str) :
  List.hd 0%N s <> 95%N -> PaynowPaymentStatus.lstrip_underscore s = s.
Proof.
  destruct s as [|c s]; [reflexivity|].
  cbn [List.hd PaynowPaymentStatus.lstrip_underscore]. intros H.
  now rewrite (proj2 (N.eqb_neq c 95) H).
Qed.

(** The value [AutoName] gives a member: the name without the underscores
    at its two ends. It never begins or ends with an underscore, and a
    name that does neither is its own value, inner underscores included;
    so every payment status has its name as value, and two different
    statuses have different values, as [@unique] demands. *)
Theorem autoname_value :
  (forall s : str,
     List.hd 0%N (PaynowPaymentStatus.strip_underscore s) <> 95%N
     /\ List.last (PaynowPaymentStatus.strip_underscore s) 0%N <> 95%N)
  /\ (forall s : str,
        List.hd 0%N s <> 95%N -> List.last s 0%N <> 95%N ->
        PaynowPaymentStatus.strip_underscore s = s)
  /\ (forall m, PaynowPaymentStatus.value m = PaynowPaymentStatus.name m)
  /\ (forall m m', PaynowPaymentStatus.value m = PaynowPaymentStatus.value m'
                   -> m = m').
Proof.
  split; [|split; [|split]].
  - intros s. unfold PaynowPaymentStatus.strip_underscore.
    set (u := List.rev (PaynowPaymentStatus.lstrip_underscore s)).
    split.
    + rewrite <- last_as_hd_rev.
      destruct (PaynowPaymentStatus.lstrip_underscore u) as [|a t] eqn:E;
        [discriminate|].
      destruct (lstrip_suffix u) as [pre Hpre].
      rewrite <- E, <- (@last_app_nonempty pre) by (rewrite E; discriminate).
      rewrite <- Hpre. unfold u.
      rewrite last_as_hd_rev, rev_involutive. apply lstrip_hd.
    + rewrite last_as_hd_rev, rev_involutive. apply lstrip_hd.
  - intros s Hh Hl. unfold PaynowPaymentStatus.strip_underscore.
    rewrite (lstrip_id _ Hh), lstrip_id.
    + apply rev_involutive.
    + now rewrite <- last_as_hd_rev.
  - intros m. destruct m; reflexivity.
  - intros m m' H. destruct m, m'; try reflexivity; discriminate H.
Qed.

(** ** Building requests *)

Lemma lstrip_slash_hd (s : str) : List.hd 0%N (Api.lstrip_slash s) <> 47%N.
Proof.
  induction s as [|c s IH]; [discriminate|].
  cbn [Api.lstrip_slash].
  destruct (N.eqb_spec c 47); [exact IH|assumption].
Qed.

Lemma lstrip_slash_prefix (s : str) :
  exists n, s = List.repeat 47%N n ++ Api.lstrip_slash s.
Proof.
  induction s as [|c s [n IH]]; [now exists 0%nat|].
  cbn [Api.lstrip_slash]. destruct (N.eqb_spec c 47) as [->|Hc].
  - exists (S n). cbn [List.repeat app]. now f_equal.
  - now exists 0%nat.
Qed.

Lemma rev_repeat (c : N) (n : nat) :
  List.rev (List.repeat c n) = List.repeat c n.
Proof.
  induction n as [|n IH]; [reflexivity|].
  cbn [List.repeat List.rev]. rewrite IH.
  clear IH. induction n as [|n IH]; [reflexivity|].
  cbn [List.repeat app]. now rewrite IH.
Qed.

(** The base URL a client keeps has no slash at its end: it is the URL it
    was given without its trailing slashes, and the given URL itself when
    that has none. The URL of a request is this base followed by the
    path. *)
Theorem api_url_no_trailing_slash (api_key signature_key api_url : str) :
  let client := Api.init api_key signature_key api_url in
  List.last (Client.api_url client) 0%N <> 47%N
  /\ (exists n, api_url = Client.api_url client ++ List.repeat 47%N n)
  /\ (List.last api_url 0%N <> 47%N -> Client.api_url client = api_url)
  /\ (forall idempotency_key method path body params request,
        Api._request client idempotency_key method path body params
        = Ok request ->
        Api.url request = Api.rstrip_slash api_url ++ path).
Proof.
  cbn [Api.init Client.api_url]. unfold Api.rstrip_slash.
  split; [|split; [|split]].
  - rewrite last_as_hd_rev, rev_involutive. apply lstrip_slash_hd.
  - destruct (lstrip_slash_prefix (List.rev api_url)) as [n Hn].
    exists n. rewrite <- (rev_involutive api_url) at 1.
    rewrite Hn at 1. now rewrite rev_app_distr, rev_repeat.
  - intros Hl. rewrite last_as_hd_rev in Hl.
    destruct (List.rev api_url) as [|c r] eqn:E.
    + apply (f_equal (@List.rev N)) in E. rewrite rev_involutive in E.
      now subst.
    + cbn [List.hd] in Hl. cbn [Api.lstrip_slash].
      rewrite (proj2 (N.eqb_neq c 47) Hl), <- E. apply rev_involutive.
  - intros idem method path body params request.
    unfold Api._request. cbn [Client.api_url].
    destruct (Client._build_headers _ _ _ _); [|discriminate].
    cbn [bind]. now intros [= <-].
Qed.


(** What [_request] builds, when it builds a request. *)
Lemma request_built (self : Client.PaynowClient)
    (idempotency_key method path : str) (body : option str)
    (params : option (Dict.dict Api.pvalue)) (request : Api.Request) :
  Api._request self idempotency_key method path body params = Ok request ->
  exists sig,
    Client._calculate_request_signature self (Client.api_key self)
      idempotency_key (match body with Some b => b | None => [] end)
      (signed_parameters params) = Ok sig
    /\ request
       = Api.mkRequest method (Client.api_url self ++ path)
           [(lit "Api-Key", Client.api_key self);
            (lit "Signature", sig);
            (lit "Idempotency-Key", idempotency_key);
            (lit "Content-Type", lit "application/json");
            (lit "Accept", lit "application/json")]
           body params.
Proof.
  unfold Api._request, Client._build_headers, signed_parameters.
  destruct params as [[|x d]|]; cbv beta iota zeta;
    (destruct (Client._calculate_request_signature _ _ _ _ _) as [sig|e];
     [|discriminate]);
    cbn [bind]; intros [= <-]; exists sig; split; reflexivity.
Qed.


(** ** The operations, from arguments to outcome *)

Section ApiFacts.

Variable send : Api.Request -> Client.Response.






End ApiFacts.

(** ** The processor's gateway operations *)

Lemma get_truthy_spec (d : Dict.dict str) (k : str) :
  match Flow.get_truthy d k with
  | Some v => Dict.get d k [] = v /\ v <> []
  | None => Dict.get d k [] = []
  end.
Proof.
  unfold Flow.get_truthy. destruct (Dict.get d k []); [reflexivity|].
  split; [reflexivity|discriminate].
Qed.

Section FlowFacts.

Variables St X : Type.
Variable amount_required : X -> Decimal.t.
Variable amount_paid : X -> Decimal.t.
Variable payment_currency : X -> str.
Variable payment_description : X -> str.
Variable buyer_info : X -> Dict.dict str.
Variable external_refund_id : X -> option str.
Variable resolve : str -> str -> result str.
Variable send : Api.Request -> Client.Response.




End FlowFacts.




(** The signature covers neither the method nor the path: two requests of
    the same client with the same idempotency key, body and query
    parameters carry the same headers, the [Signature] included, wherever
    they go. *)
Theorem signature_ignores_method_and_path (self : Client.PaynowClient)
    (idempotency_key method1 path1 method2 path2 : str) (body : option str)
    (params : option (Dict.dict Api.pvalue)) (request1 request2 : Api.Request) :
  Api._request self idempotency_key method1 path1 body params = Ok request1 ->
  Api._request self idempotency_key method2 path2 body params = Ok request2 ->
  Api.headers request1 = Api.headers request2.
Proof.
  intros H1 H2.
  destruct (request_built _ _ _ _ _ _ H1) as (sig1 & Hs1 & ->).
  destruct (request_built _ _ _ _ _ _ H2) as (sig2 & Hs2 & ->).
  cbn [Api.headers]. rewrite Hs1 in Hs2. now injection Hs2 as ->.
Qed.

(** A status read and a refund cancellation under one idempotency key. *)
Lemma signature_ignores_method_and_path_witness :
  exists request1 request2,
    Api._request Fixture.client Fixture.idempotency_key (lit "GET")
      (lit "/v3/payments/PAY-9/status") None None = Ok request1
    /\ Api._request Fixture.client Fixture.idempotency_key (lit "POST")
         (lit "/v3/refunds/REF-1/cancel") None None = Ok request2
    /\ Api.headers request1 = Api.headers request2.
Proof.
  destruct (Api._request Fixture.client Fixture.idempotency_key (lit "GET")
              (lit "/v3/payments/PAY-9/status") None None)
    as [request1|e] eqn:E1; [|vm_compute in E1; discriminate E1].
  destruct (Api._request Fixture.client Fixture.idempotency_key (lit "POST")
              (lit "/v3/refunds/REF-1/cancel") None None)
    as [request2|e] eqn:E2; [|vm_compute in E2; discriminate E2].
  exists request1, request2. repeat split.
  eapply signature_ignores_method_and_path; [exact E1 | exact E2].
Defined.
